(** * Request-authentication gate: exclusion matching and the Basic-Auth pipeline

    Shallow embedding of [api/v1/auth/auth.py] (class [Auth]) and
    [api/v1/auth/basic_auth.py] (class [BasicAuth]).

    - A Python [str] is a list of Unicode code points ([Z]).
    - A Python [bytes] is a list of octets ([Z] in [0, 256)).
    - A call that may raise returns a [result]: [Ret v] or [Raise e].
    - The standard-library calls the two classes make ([str.startswith],
      [str.endswith], [str.split], [base64.b64decode], [bytes.decode],
      [fnmatch.fnmatch]) are embedded from CPython 3.11. *)

From Stdlib Require Import ZArith List Bool Lia String Ascii Permutation.
Import ListNotations.
Local Open Scope Z_scope.

(* ================================================================== *)
(** ** Python values, strings and exceptions *)

Module Py.

(** [str]: the sequence of its code points. *)
Definition pystr := list Z.

(** [bytes]: the sequence of its octets. *)
Definition pybytes := list Z.

Definition octet (b : Z) : Prop := 0 <= b < 256.

(** A string literal of the source, as code points. *)
Definition lit (s : string) : pystr :=
  map (fun a => Z.of_N (N_of_ascii a)) (list_ascii_of_string s).

(** The objects a handler can be handed where a [str] is expected. *)
Inductive value : Type :=
| PyNone
| PyStr (s : pystr)
| PyInt (n : Z)
| PyBytes (b : pybytes).

(** [isinstance(v, str)] *)
Definition isinstance_str (v : value) : bool :=
  match v with PyStr _ => true | _ => false end.

(** The exceptions raised by the library calls of the pipeline.
    [binascii.Error] and [UnicodeDecodeError] are subclasses of
    [ValueError]; an [except] clause naming the two subclasses does not
    catch a plain [ValueError]. *)
Inductive exn : Type :=
| ValueError
| BinasciiError
| UnicodeDecodeError.

Inductive result (A : Type) : Type :=
| Ret (a : A)
| Raise (e : exn).
Arguments Ret {A} a.
Arguments Raise {A} e.

Definition bind {A B} (m : result A) (k : A -> result B) : result B :=
  match m with
  | Ret a => k a
  | Raise e => Raise e
  end.

(** [try: m  except (binascii.Error, UnicodeDecodeError): h] *)
Definition try_except {A} (m : result A) (h : result A) : result A :=
  match m with
  | Ret a => Ret a
  | Raise BinasciiError => h
  | Raise UnicodeDecodeError => h
  | Raise ValueError => Raise ValueError
  end.

Fixpoint str_eqb (a b : pystr) : bool :=
  match a, b with
  | [], [] => true
  | x :: a', y :: b' => (x =? y) && str_eqb a' b'
  | _, _ => false
  end.

(** [s.startswith(prefix)] *)
Fixpoint startswith (s prefix : pystr) {struct prefix} : bool :=
  match prefix, s with
  | [], _ => true
  | p :: prefix', c :: s' => (c =? p) && startswith s' prefix'
  | _ :: _, [] => false
  end.

(** [s.endswith(suffix)] *)
Definition endswith (s suffix : pystr) : bool :=
  startswith (rev s) (rev suffix).

(** [c in s] for a one-character [c]. *)
Definition contains (c : Z) (s : pystr) : bool :=
  existsb (Z.eqb c) s.

(** [x in l] for a list of strings. *)
Definition str_in (x : pystr) (l : list pystr) : bool :=
  existsb (str_eqb x) l.

(** [s.split(sep, 1)] when [sep] occurs in [s]: the text before the first
    [sep] and the text after it. *)
Fixpoint split_first (sep : Z) (s : pystr) : pystr * pystr :=
  match s with
  | [] => ([], [])
  | c :: s' =>
      if c =? sep then ([], s')
      else let (a, b) := split_first sep s' in (c :: a, b)
  end.

(** [all(ord(c) < 128 for c in s)]: what [s.encode('ascii')] needs. *)
Definition isascii (s : pystr) : bool :=
  forallb (fun c => (0 <=? c) && (c <? 128)) s.

End Py.

Import Py.

Declare Scope py_scope.
Delimit Scope py_scope with py.
Notation "m >>= k" := (bind m k) (at level 50, left associativity) : py_scope.

(* ================================================================== *)
(** ** [fnmatch]: shell-style pattern matching *)

Module Fnmatch.

(** The pieces of the regular expression [translate] builds. *)
Inductive piece : Type :=
| STAR                               (* [*], later [.*] *)
| AnyChar                            (* [.] under the [s] flag *)
| Lit (c : Z)                        (* [re.escape(c)], and [\[] *)
| NeverMatch                         (* [(?!)] *)
| CharSet (neg : bool) (chunks : list pystr).
                                     (* [[stuff]] or [[^stuff]] *)

Definition ch_star : Z := 42.
Definition ch_quest : Z := 63.
Definition ch_lbracket : Z := 91.
Definition ch_rbracket : Z := 93.
Definition ch_bang : Z := 33.
Definition ch_hyphen : Z := 45.

(** The prefix of [l] before the first [c], when [c] occurs. *)
Fixpoint before_first (c : Z) (l : pystr) : option pystr :=
  match l with
  | [] => None
  | x :: l' =>
      if x =? c then Some []
      else option_map (cons x) (before_first c l')
  end.

(** The scan for the closing bracket: [j = i], one step over a leading
    [!], one step over a leading [[]]], then on to the next [[]]].
    Returns [pat[i:j]] when [j < n]. *)
Definition scan_bracket (rest : pystr) : option pystr :=
  let '(p1, r1) :=
    match rest with
    | c :: r => if c =? ch_bang then ([c], r) else ([], rest)
    | [] => ([], [])
    end in
  let '(p2, r2) :=
    match r1 with
    | c :: r => if c =? ch_rbracket then ([c], r) else ([], r1)
    | [] => ([], [])
    end in
  option_map (fun body => p1 ++ p2 ++ body) (before_first ch_rbracket r2).

(** The [while True] loop that cuts [stuff] at the hyphens that make
    ranges. [skip] characters are taken as they are ([k] starts at
    [i+1], or [i+2] after [!]; after a cut, [i = k+1] and the search
    resumes at [k+3]). Returns the chunks cut so far and the text left
    ([pat[i:j]]). *)
Fixpoint cut_chunks (skip : nat) (cur : pystr) (s : pystr)
  : list pystr * pystr :=
  match s with
  | [] => ([], cur)
  | c :: s' =>
      match skip with
      | S k => cut_chunks k (cur ++ [c]) s'
      | O =>
          if c =? ch_hyphen then
            let (cs, last) := cut_chunks 2 [] s' in (cur :: cs, last)
          else cut_chunks 0 (cur ++ [c]) s'
      end
  end.

(** [chunks[-1] += '-'] *)
Fixpoint append_to_last (cs : list pystr) (c : Z) : list pystr :=
  match cs with
  | [] => []
  | [x] => [x ++ [c]]
  | x :: cs' => x :: append_to_last cs' c
  end.

(** The removal of empty ranges, from the last chunk down. *)
Definition merge_step (chunk : pystr) (acc : list pystr) : list pystr :=
  match acc with
  | [] => [chunk]
  | next :: acc' =>
      match rev chunk, next with
      | hi :: _, lo :: next' =>
          if lo <? hi then (removelast chunk ++ next') :: acc'
          else chunk :: acc
      | _, _ => chunk :: acc
      end
  end.

Definition remove_empty_ranges (chunks : list pystr) : list pystr :=
  fold_right merge_step [] chunks.

(** The chunks of a bracket expression: one chunk when [stuff] has no
    hyphen, else the cut and cleaned ones. *)
Definition chunks_of (stuff : pystr) : list pystr :=
  if negb (contains ch_hyphen stuff) then [stuff]
  else
    let skip := match stuff with
                | c :: _ => if c =? ch_bang then 2%nat else 1%nat
                | [] => 1%nat
                end in
    let (cs, chunk) := cut_chunks skip [] stuff in
    let chunks := match chunk with
                  | [] => append_to_last cs ch_hyphen
                  | _ => cs ++ [chunk]
                  end in
    remove_empty_ranges chunks.

(** What [translate] adds for [[stuff]]. The text it builds is the
    chunks joined by hyphens. *)
Definition bracket_piece (stuff : pystr) : piece :=
  match chunks_of stuff with
  | [] | [[]] => NeverMatch
  | (c :: first) :: others =>
      if c =? ch_bang then
        match first, others with
        | [], [] => AnyChar
        | _, _ => CharSet true (first :: others)
        end
      else CharSet false ((c :: first) :: others)
  | chunks => CharSet false chunks
  end.

(** [add(STAR)] unless the last piece added is a [STAR]. *)
Definition add_star (res : list piece) : list piece :=
  match rev res with
  | STAR :: _ => res
  | _ => res ++ [STAR]
  end.

(** The first loop of [translate]; [skip] counts the characters of a
    bracket expression still to step over ([i = j+1]). *)
Fixpoint translate_loop (skip : nat) (res : list piece) (pat : pystr)
  : list piece :=
  match pat with
  | [] => res
  | c :: rest =>
      match skip with
      | S k => translate_loop k res rest
      | O =>
          if c =? ch_star then translate_loop 0 (add_star res) rest
          else if c =? ch_quest then translate_loop 0 (res ++ [AnyChar]) rest
          else if c =? ch_lbracket then
            match scan_bracket rest with
            | None => translate_loop 0 (res ++ [Lit ch_lbracket]) rest
            | Some stuff =>
                translate_loop (S (List.length stuff))
                               (res ++ [bracket_piece stuff]) rest
            end
          else translate_loop 0 (res ++ [Lit c]) rest
      end
  end.

Definition translate (pat : pystr) : list piece :=
  translate_loop 0 [] pat.

(** Membership in a character set: a character of a chunk, or a
    character between the end of a chunk and the start of the next. *)
Fixpoint in_ranges (chunks : list pystr) (c : Z) : bool :=
  match chunks with
  | a :: ((b :: _) as tl) =>
      match rev a, b with
      | lo :: _, hi :: _ => ((lo <=? c) && (c <=? hi)) || in_ranges tl c
      | _, _ => in_ranges tl c
      end
  | _ => false
  end.

Definition in_set (chunks : list pystr) (c : Z) : bool :=
  existsb (contains c) chunks || in_ranges chunks c.

(** One piece against one character. *)
Definition accepts (p : piece) (c : Z) : bool :=
  match p with
  | STAR => true
  | AnyChar => true
  | Lit x => c =? x
  | NeverMatch => false
  | CharSet neg chunks => xorb neg (in_set chunks c)
  end.

(** [re.compile(res).match(name) is not None] for the expression
    [(?s:res)\Z]: every piece but [STAR] takes one character, [STAR]
    takes any run, and the whole of [name] must be taken. *)
Fixpoint re_match (ps : list piece) (name : pystr) : bool :=
  match ps with
  | [] => match name with [] => true | _ => false end
  | STAR :: ps' =>
      (fix star (name : pystr) : bool :=
         re_match ps' name ||
         match name with
         | [] => false
         | _ :: name' => star name'
         end) name
  | p :: ps' =>
      match name with
      | [] => false
      | c :: name' => accepts p c && re_match ps' name'
      end
  end.

Definition fnmatchcase (name pat : pystr) : bool :=
  re_match (translate pat) name.

(** [os.path.normcase] of [posixpath]. *)
Definition normcase (s : pystr) : pystr := s.

Definition fnmatch (name pat : pystr) : bool :=
  fnmatchcase (normcase name) (normcase pat).

(** The characters [translate] does not take as they are. *)
Definition special (c : Z) : bool :=
  (c =? ch_star) || (c =? ch_quest) || (c =? ch_lbracket).

(** A pattern without [*], [?] and [[]. *)
Definition plain (pat : pystr) : bool :=
  forallb (fun c => negb (special c)) pat.

End Fnmatch.

(* ================================================================== *)
(** ** [class Auth] *)

Module Auth.

Definition slash : pystr := lit "/".

(** [not excluded_paths or excluded_paths == []] *)
Definition no_exclusions (excluded_paths : option (list pystr)) : bool :=
  match excluded_paths with
  | None => true
  | Some [] => true
  | Some (_ :: _) => false
  end.

(** The [for excluded_path in excluded_paths] loop. *)
Fixpoint match_loop (normalized_path : pystr) (excluded_paths : list pystr)
  : bool :=
  match excluded_paths with
  | [] => true
  | excluded_path :: others =>
      if Fnmatch.fnmatch normalized_path excluded_path then false
      else match_loop normalized_path others
  end.

(** The path with a trailing separator: [if not path.endswith('/'):
    path += '/'] *)
Definition normalized (path : pystr) : pystr :=
  if negb (endswith path slash) then path ++ slash else path.

Definition require_auth (path : option pystr)
           (excluded_paths : option (list pystr)) : bool :=
  match path with
  | None => true
  | Some path =>
      if no_exclusions excluded_paths then true
      else
        let path := normalized path in
        match excluded_paths with
        | None => true
        | Some l =>
            if str_in path l then false
            else if (List.length l =? 0)%nat then true
            else
              let normalized_path :=
                if endswith path slash then path else path ++ slash in
              match_loop normalized_path l
        end
  end.

Definition Authorization : pystr := lit "Authorization".

(** A request, as far as the gate reads it: [request.headers.get]. *)
Record Request : Type := mkRequest {
  headers_get : pystr -> option pystr
}.

Definition authorization_header (request : option Request) : option pystr :=
  match request with
  | None => None
  | Some request => headers_get request Authorization
  end.

End Auth.

(* ================================================================== *)
(** ** UTF-8, as [str.encode('utf-8')] and [bytes.decode('utf-8')] *)

Module Utf8.

(** [IS_CONTINUATION_BYTE] *)
Definition is_continuation_byte (ch : Z) : bool :=
  (0x80 <=? ch) && (ch <? 0xC0).

(** The strict decoder: [None] stands for [UnicodeDecodeError]. *)
Fixpoint decode (s : pybytes) : option pystr :=
  match s with
  | [] => Some []
  | ch :: s1 =>
      if ch <? 0x80 then option_map (cons ch) (decode s1)
      else if ch <? 0xC2 then None
      else if ch <? 0xE0 then
        match s1 with
        | ch2 :: s2 =>
            if negb (is_continuation_byte ch2) then None
            else option_map
                   (cons (Z.shiftl ch 6 + ch2 - (Z.shiftl 0xC0 6 + 0x80)))
                   (decode s2)
        | _ => None
        end
      else if ch <? 0xF0 then
        match s1 with
        | ch2 :: ch3 :: s3 =>
            if negb (is_continuation_byte ch2)
               || (if ch2 <? 0xA0 then ch =? 0xE0 else ch =? 0xED)
            then None
            else if negb (is_continuation_byte ch3) then None
            else option_map
                   (cons (Z.shiftl ch 12 + Z.shiftl ch2 6 + ch3
                          - (Z.shiftl 0xE0 12 + Z.shiftl 0x80 6 + 0x80)))
                   (decode s3)
        | _ => None
        end
      else if ch <? 0xF5 then
        match s1 with
        | ch2 :: ch3 :: ch4 :: s4 =>
            if negb (is_continuation_byte ch2)
               || (if ch2 <? 0x90 then ch =? 0xF0 else ch =? 0xF4)
            then None
            else if negb (is_continuation_byte ch3) then None
            else if negb (is_continuation_byte ch4) then None
            else option_map
                   (cons (Z.shiftl ch 18 + Z.shiftl ch2 12
                          + Z.shiftl ch3 6 + ch4
                          - (Z.shiftl 0xF0 18 + Z.shiftl 0x80 12
                             + Z.shiftl 0x80 6 + 0x80)))
                   (decode s4)
        | _ => None
        end
      else None
  end.

(** [Py_UNICODE_IS_SURROGATE] *)
Definition is_surrogate (ch : Z) : bool :=
  (0xD800 <=? ch) && (ch <=? 0xDFFF).

(** The octets of one code point; [None] stands for
    [UnicodeEncodeError]. *)
Definition encode_char (ch : Z) : option pybytes :=
  if (ch <? 0) || (0x10FFFF <? ch) then None
  else if ch <? 0x80 then Some [ch]
  else if ch <? 0x0800 then
    Some [Z.lor 0xC0 (Z.shiftr ch 6); Z.lor 0x80 (Z.land ch 0x3F)]
  else if is_surrogate ch then None
  else if ch <? 0x10000 then
    Some [Z.lor 0xE0 (Z.shiftr ch 12);
          Z.lor 0x80 (Z.land (Z.shiftr ch 6) 0x3F);
          Z.lor 0x80 (Z.land ch 0x3F)]
  else
    Some [Z.lor 0xF0 (Z.shiftr ch 18);
          Z.lor 0x80 (Z.land (Z.shiftr ch 12) 0x3F);
          Z.lor 0x80 (Z.land (Z.shiftr ch 6) 0x3F);
          Z.lor 0x80 (Z.land ch 0x3F)].

Fixpoint encode (s : pystr) : option pybytes :=
  match s with
  | [] => Some []
  | ch :: s' =>
      match encode_char ch, encode s' with
      | Some b, Some bs => Some (b ++ bs)
      | _, _ => None
      end
  end.

End Utf8.

(* ================================================================== *)
(** ** [base64] over [binascii] *)

Module Base64.

Definition BASE64_PAD : Z := 61.

Definition table_b2a_base64 : pystr :=
  lit "ABCDEFGHIJKLMNOPQRSTUVWXYZabcdefghijklmnopqrstuvwxyz0123456789+/".

Definition b2a (this_ch : Z) : Z :=
  nth (Z.to_nat this_ch) table_b2a_base64 0.

(** [table_a2b_base64]: the six bits of a character of the alphabet,
    255 (the [unsigned char] -1) for every other octet. *)
Definition table_a2b_base64 (c : Z) : Z :=
  if (65 <=? c) && (c <=? 90) then c - 65
  else if (97 <=? c) && (c <=? 122) then c - 71
  else if (48 <=? c) && (c <=? 57) then c + 4
  else if c =? 43 then 62
  else if c =? 47 then 63
  else 255.

(** A character of the standard alphabet ([A-Za-z0-9+/]). *)
Definition in_alphabet (c : Z) : bool :=
  table_a2b_base64 c <? 64.

(** The characters [a2b_base64] looks at. *)
Definition significant (c : Z) : bool :=
  (c =? BASE64_PAD) || in_alphabet c.

(** The loop of [binascii.a2b_base64] with [strict_mode] off. [Ret] at
    a completed pad sequence is the [goto done]. *)
Fixpoint a2b_loop (ascii_data : pybytes) (quad_pos leftchar pads : Z)
         (bin_data : pybytes) : result pybytes :=
  match ascii_data with
  | [] =>
      if negb (quad_pos =? 0) then Raise BinasciiError
      else Ret bin_data
  | this_ch :: rest =>
      if this_ch =? BASE64_PAD then
        if 2 <=? quad_pos then
          if 4 <=? quad_pos + (pads + 1) then Ret bin_data
          else a2b_loop rest quad_pos leftchar (pads + 1) bin_data
        else a2b_loop rest quad_pos leftchar pads bin_data
      else
        let this_ch := table_a2b_base64 this_ch in
        if 64 <=? this_ch then a2b_loop rest quad_pos leftchar pads bin_data
        else
          match quad_pos with
          | 0 => a2b_loop rest 1 this_ch 0 bin_data
          | 1 =>
              a2b_loop rest 2 (Z.land this_ch 0x0f) 0
                (bin_data ++
                 [Z.land (Z.lor (Z.shiftl leftchar 2) (Z.shiftr this_ch 4))
                         0xff])
          | 2 =>
              a2b_loop rest 3 (Z.land this_ch 0x03) 0
                (bin_data ++
                 [Z.land (Z.lor (Z.shiftl leftchar 4) (Z.shiftr this_ch 2))
                         0xff])
          | _ =>
              a2b_loop rest 0 0 0
                (bin_data ++
                 [Z.land (Z.lor (Z.shiftl leftchar 6) this_ch) 0xff])
          end
  end.

Definition a2b_base64 (data : pybytes) : result pybytes :=
  a2b_loop data 0 0 0 [].

(** [_bytes_from_decode_data] on a [str]: [s.encode('ascii')], whose
    [UnicodeEncodeError] is turned into a [ValueError]. *)
Definition _bytes_from_decode_data (s : pystr) : result pybytes :=
  if isascii s then Ret s else Raise ValueError.

(** [base64.b64decode(s)]: no [altchars], [validate=False]. *)
Definition b64decode (s : pystr) : result pybytes :=
  (_bytes_from_decode_data s >>= a2b_base64)%py.

(** [base64.b64encode(s)], by groups of three octets (RFC 4648). *)
Fixpoint b64encode (s : pybytes) : pybytes :=
  match s with
  | [] => []
  | [b1] =>
      [b2a (Z.shiftr b1 2);
       b2a (Z.shiftl (Z.land b1 3) 4);
       BASE64_PAD; BASE64_PAD]
  | [b1; b2] =>
      [b2a (Z.shiftr b1 2);
       b2a (Z.lor (Z.shiftl (Z.land b1 3) 4) (Z.shiftr b2 4));
       b2a (Z.shiftl (Z.land b2 0xf) 2);
       BASE64_PAD]
  | b1 :: b2 :: b3 :: rest =>
      [b2a (Z.shiftr b1 2);
       b2a (Z.lor (Z.shiftl (Z.land b1 3) 4) (Z.shiftr b2 4));
       b2a (Z.lor (Z.shiftl (Z.land b2 0xf) 2) (Z.shiftr b3 6));
       b2a (Z.land b3 0x3f)] ++ b64encode rest
  end.

End Base64.

(* ================================================================== *)
(** ** [class BasicAuth(Auth)] *)

Module BasicAuth.

(** The methods of [Auth] are those of [BasicAuth] too. *)
Export Auth.

Definition Basic_ : pystr := lit "Basic ".
Definition colon : Z := 58.

Definition extract_base64_authorization_header
           (authorization_header : value) : option pystr :=
  match authorization_header with
  | PyNone => None
  | PyStr s =>
      if negb (startswith s Basic_) then None
      else Some (skipn (List.length Basic_) s)
  | _ => None
  end.

(** [decoded_bytes.decode('utf-8')] *)
Definition decode_utf8 (decoded_bytes : pybytes) : result pystr :=
  match Utf8.decode decoded_bytes with
  | Some s => Ret s
  | None => Raise UnicodeDecodeError
  end.

Definition decode_base64_authorization_header
           (base64_authorization_header : value) : result (option pystr) :=
  match base64_authorization_header with
  | PyNone => Ret None
  | PyStr s =>
      try_except
        (Base64.b64decode s >>= fun decoded_bytes =>
         decode_utf8 decoded_bytes >>= fun text =>
         Ret (Some text))%py
        (Ret None)
  | _ => Ret None
  end.

Definition extract_user_credentials
           (decoded_base64_authorization_header : value)
  : option pystr * option pystr :=
  match decoded_base64_authorization_header with
  | PyNone => (None, None)
  | PyStr s =>
      if negb (contains colon s) then (None, None)
      else let (email, password) := split_first colon s in
           (Some email, Some password)
  | _ => (None, None)
  end.

Section Store.

(** The user store: [User.search({'email': e})] and
    [user.is_valid_password(pwd)]. *)
Variable User : Type.
Variable search : pystr -> list User.
Variable is_valid_password : User -> pystr -> bool.

Definition user_object_from_credentials (user_email user_pwd : value)
  : option User :=
  match user_email, user_pwd with
  | PyStr email, PyStr pwd =>
      match search email with
      | [] => None
      | user :: _ =>
          if negb (is_valid_password user pwd) then None
          else Some user
      end
  | _, _ => None
  end.

Definition current_user (request : option Request)
  : result (option User) :=
  match authorization_header request with
  | None => Ret None
  | Some header =>
      match extract_base64_authorization_header (PyStr header) with
      | None => Ret None
      | Some base64_header =>
          (decode_base64_authorization_header (PyStr base64_header)
           >>= fun decoded_header =>
           match decoded_header with
           | None => Ret None
           | Some decoded =>
               match extract_user_credentials (PyStr decoded) with
               | (Some user_email, Some user_pwd) =>
                   Ret (user_object_from_credentials
                          (PyStr user_email) (PyStr user_pwd))
               | _ => Ret None
               end
           end)%py
      end
  end.

End Store.

(** A store with no user and a request that carries one authorization
    header, for concrete runs. *)
Definition no_users (_ : pystr) : list unit := [].
Definition reject (_ : unit) (_ : pystr) : bool := false.

Definition request_with (header : pystr) : option Request :=
  Some (mkRequest (fun name => if str_eqb name Authorization
                               then Some header else None)).

(** A store with one user, a pair of an email and a password. *)
Definition bob : pystr * pystr := (lit "bob@hbtn.io", lit "pa:ss").

Definition only_bob (email : pystr) : list (pystr * pystr) :=
  if str_eqb email (fst bob) then [bob] else [].

Definition same_password (user : pystr * pystr) (pwd : pystr) : bool :=
  str_eqb (snd user) pwd.

End BasicAuth.


(* ================================================================== *)
(** * Properties *)

(** ** Runs of the library calls *)

Section Runs.

Example fnmatch_star :
  Fnmatch.fnmatch (lit "/api/v1/stats/") (lit "/api/v1/stat*") = true.
Proof. reflexivity. Qed.

Example fnmatch_question : Fnmatch.fnmatch (lit "a/b") (lit "a?b") = true.
Proof. reflexivity. Qed.

Example fnmatch_range : Fnmatch.fnmatch (lit "b") (lit "[a-c]") = true.
Proof. reflexivity. Qed.

Example fnmatch_negated_range :
  Fnmatch.fnmatch (lit "d") (lit "[!a-c]") = true.
Proof. reflexivity. Qed.

Example fnmatch_empty_range : Fnmatch.fnmatch (lit "x") (lit "[z-a]") = false.
Proof. reflexivity. Qed.

Example fnmatch_open_bracket : Fnmatch.fnmatch (lit "[") (lit "[") = true.
Proof. reflexivity. Qed.

Example fnmatch_set_not_literal :
  Fnmatch.fnmatch (lit "[x]/") (lit "[x]/") = false
  /\ Fnmatch.fnmatch (lit "x/") (lit "[x]/") = true.
Proof. split; reflexivity. Qed.

Example b64decode_padded : Base64.b64decode (lit "aGk=") = Ret (lit "hi").
Proof. reflexivity. Qed.

Example b64decode_unpadded :
  Base64.b64decode (lit "aGk") = Raise BinasciiError.
Proof. reflexivity. Qed.

Example b64decode_one_character :
  Base64.b64decode (lit "a") = Raise BinasciiError.
Proof. reflexivity. Qed.

Example b64decode_after_padding :
  Base64.b64decode (lit "aGk=junk") = Ret (lit "hi").
Proof. reflexivity. Qed.

Example b64decode_non_ascii_e_acute :
  Base64.b64decode [233] = Raise ValueError.
Proof. reflexivity. Qed.

Example utf8_decode_euro : Utf8.decode [0xE2; 0x82; 0xAC] = Some [0x20AC].
Proof. reflexivity. Qed.

Example utf8_decode_overlong : Utf8.decode [0xC0; 0x80] = None.
Proof. reflexivity. Qed.

Example utf8_decode_surrogate : Utf8.decode [0xED; 0xA0; 0x80] = None.
Proof. reflexivity. Qed.

Example utf8_encode_surrogate : Utf8.encode [0xD800] = None.
Proof. reflexivity. Qed.

End Runs.

(** ** Strings *)

Section StringFacts.

Lemma str_eqb_eq (a b : pystr) : str_eqb a b = true <-> a = b.
Proof.
  revert b; induction a as [|x a IH]; intros [|y b]; simpl;
    try (split; congruence).
  rewrite andb_true_iff, Z.eqb_eq, IH.
  split; [intros [-> ->]; reflexivity | intros H; inversion H; auto].
Qed.

Lemma str_in_In (x : pystr) (l : list pystr) : str_in x l = true <-> In x l.
Proof.
  unfold str_in. rewrite existsb_exists. split.
  - intros (y & Hy & E). apply str_eqb_eq in E. now subst.
  - intros H. exists x. split; [assumption | now apply str_eqb_eq].
Qed.

Lemma startswith_app (p s : pystr) : startswith (p ++ s) p = true.
Proof. induction p as [|c p IH]; simpl; [reflexivity|]. now rewrite Z.eqb_refl. Qed.

Lemma startswith_inv (s p : pystr) :
  startswith s p = true -> s = p ++ skipn (List.length p) s.
Proof.
  revert s; induction p as [|c p IH]; intros s; simpl; [reflexivity|].
  destruct s as [|x s]; [discriminate|].
  rewrite andb_true_iff, Z.eqb_eq. intros [-> H]. f_equal. now apply IH.
Qed.

Lemma skipn_prefix (p s : pystr) : skipn (List.length p) (p ++ s) = s.
Proof. induction p; simpl; auto. Qed.

Lemma endswith_app (s suffix : pystr) : endswith (s ++ suffix) suffix = true.
Proof. unfold endswith. rewrite rev_app_distr. apply startswith_app. Qed.

End StringFacts.

(** ** The access gate *)

Section RequireAuth.

Import Auth.

Lemma normalized_endswith (p : pystr) : endswith (normalized p) slash = true.
Proof.
  unfold normalized. destruct (endswith p slash) eqn:E; simpl.
  - exact E.
  - apply endswith_app.
Qed.

Lemma match_loop_existsb (p : pystr) (l : list pystr) :
  match_loop p l = negb (existsb (Fnmatch.fnmatch p) l).
Proof.
  induction l as [|e l IH]; simpl; [reflexivity|].
  destruct (Fnmatch.fnmatch p e); simpl; auto.
Qed.

(** On a path and a non-empty list, the gate answers "no authentication"
    exactly when the normalized path is an entry or matches one. *)
Lemma require_auth_unfold (p : pystr) (l : list pystr) :
  l <> [] ->
  require_auth (Some p) (Some l)
  = negb (str_in (normalized p) l
          || existsb (Fnmatch.fnmatch (normalized p)) l).
Proof.
  intros Hl. destruct l as [|e l]; [congruence|].
  unfold require_auth, no_exclusions.
  destruct (str_in (normalized p) (e :: l)); [reflexivity|].
  rewrite normalized_endswith.
  cbn [List.length Nat.eqb orb]. apply match_loop_existsb.
Qed.

Lemma existsb_Permutation {A} (f : A -> bool) (l l' : list A) :
  Permutation l l' -> existsb f l = existsb f l'.
Proof.
  induction 1; simpl.
  - reflexivity.
  - now rewrite IHPermutation.
  - destruct (f x), (f y); reflexivity.
  - congruence.
Qed.

(** C6. Fail-secure defaults: with an absent path the gate requires
    authentication whatever the exclusion list, and with an empty
    exclusion list it requires authentication whatever the path. *)
Theorem require_auth_fail_secure :
  (forall excluded_paths, require_auth None excluded_paths = true)
  /\ (forall path, require_auth path (Some []) = true).
Proof.
  split.
  - reflexivity.
  - intros [p|]; reflexivity.
Qed.

(** C7. The three vectors: a path made equal to an entry by the trailing
    separator is exempt, a path no entry matches is not, a path a glob
    matches is exempt. *)
Theorem require_auth_vectors :
  require_auth (Some (lit "/api/v1/status")) (Some [lit "/api/v1/status/"])
  = false
  /\ require_auth (Some (lit "/api/v1/users/55")) (Some [lit "/api/v1/stat*"])
     = true
  /\ require_auth (Some (lit "/api/v1/stats/")) (Some [lit "/api/v1/stat*"])
     = false.
Proof. repeat split; vm_compute; reflexivity. Qed.

(** C9. The order of the exclusion list does not change the answer. *)
Theorem require_auth_Permutation (path : option pystr) (l l' : list pystr) :
  Permutation l l' ->
  require_auth path (Some l) = require_auth path (Some l').
Proof.
  intros HP. destruct path as [p|]; [|reflexivity].
  destruct l as [|e l].
  - apply Permutation_nil in HP. now subst.
  - assert (Hl' : l' <> []).
    { intros ->. apply Permutation_sym, Permutation_nil in HP. discriminate. }
    rewrite !require_auth_unfold by (assumption || discriminate).
    unfold str_in.
    now rewrite (existsb_Permutation _ _ _ HP),
                (existsb_Permutation (Fnmatch.fnmatch _) _ _ HP).
Qed.

Lemma require_auth_Permutation_witness :
  Permutation [lit "/a/"; lit "/b*"] [lit "/b*"; lit "/a/"]
  /\ require_auth (Some (lit "/bc")) (Some [lit "/a/"; lit "/b*"])
     = require_auth (Some (lit "/bc")) (Some [lit "/b*"; lit "/a/"]).
Proof.
  split.
  - apply perm_swap.
  - apply require_auth_Permutation, perm_swap.
Defined.

(** C2, as stated, fails: the path is given its trailing separator
    before the equality check, so an entry equal to the path as
    received does not exempt it. *)
Lemma require_auth_literal_entry_not_exempt :
  let p := lit "/api/v1/status" in
  endswith p slash = false
  /\ In p [p]
  /\ require_auth (Some p) (Some [p]) = true.
Proof. repeat split; left; reflexivity. Qed.

(** C2, amended. The equality check compares the normalized path with
    the entries as given and comes before the wildcard loop: a list
    that holds the normalized path exempts it, also where the loop
    alone would not (an entry that, read as a pattern, does not match
    itself). *)
Theorem require_auth_exact_entry :
  (forall (p : pystr) (l : list pystr),
      In (normalized p) l -> require_auth (Some p) (Some l) = false)
  /\ (let p := lit "[x]" in
      let l := [lit "[x]/"] in
      In (normalized p) l /\ match_loop (normalized p) l = true).
Proof.
  split.
  - intros p l Hin.
    rewrite require_auth_unfold by (intros ->; inversion Hin).
    apply str_in_In in Hin. now rewrite Hin.
  - split; [left; reflexivity | vm_compute; reflexivity].
Qed.

Lemma require_auth_exact_entry_witness :
  In (normalized (lit "/api/v1/status")) [lit "/api/v1/status/"]
  /\ require_auth (Some (lit "/api/v1/status")) (Some [lit "/api/v1/status/"])
     = false.
Proof.
  split.
  - left; reflexivity.
  - apply (proj1 require_auth_exact_entry). left; reflexivity.
Defined.

End RequireAuth.

(** ** Bit operations as arithmetic *)

Section Bits.

Lemma land_shiftl_low (x y k : Z) :
  0 <= k -> 0 <= y < 2 ^ k -> Z.land (Z.shiftl x k) y = 0.
Proof.
  intros Hk Hy. apply Z.bits_inj'. intros n Hn.
  rewrite Z.land_spec, Z.bits_0.
  destruct (Z.ltb_spec n k) as [Hlt|Hge].
  - rewrite Z.shiftl_spec_low by assumption. reflexivity.
  - rewrite <- (Z.mod_small y (2 ^ k)) by assumption.
    rewrite Z.mod_pow2_bits_high by lia. apply andb_false_r.
Qed.

Lemma lor_shiftl_add (x y k : Z) :
  0 <= k -> 0 <= y < 2 ^ k -> Z.lor (Z.shiftl x k) y = x * 2 ^ k + y.
Proof.
  intros Hk Hy.
  rewrite <- Z.lxor_lor, <- Z.add_nocarry_lxor
    by (apply land_shiftl_low; assumption).
  now rewrite Z.shiftl_mul_pow2.
Qed.

Lemma lor_add_low (a y k : Z) :
  0 <= k -> 0 <= y < 2 ^ k -> a mod 2 ^ k = 0 -> Z.lor a y = a + y.
Proof.
  intros Hk Hy Ha.
  assert (E : a = Z.shiftl (a / 2 ^ k) k).
  { rewrite Z.shiftl_mul_pow2 by assumption.
    pose proof (Z.div_mod a (2 ^ k)). lia. }
  rewrite E at 1. rewrite lor_shiftl_add by assumption.
  rewrite Z.shiftl_mul_pow2 in E by assumption. lia.
Qed.

(** A property of the numbers below [n], checked one by one. *)
Lemma forall_below (n : nat) (P : Z -> bool) :
  forallb P (map Z.of_nat (seq 0 n)) = true ->
  forall x, 0 <= x < Z.of_nat n -> P x = true.
Proof.
  intros H x Hx. rewrite forallb_forall in H. apply H.
  rewrite <- (Z2Nat.id x) by lia. apply in_map, in_seq. lia.
Qed.

End Bits.

(** Shifts and masks to [/], [*] and [mod]. *)
Ltac shifts_to_arith :=
  repeat first
    [ rewrite Z.shiftr_div_pow2 by lia
    | rewrite Z.shiftl_mul_pow2 by lia
    | match goal with
      | |- context [Z.land ?a 0x3f] =>
          change (Z.land a 0x3f) with (Z.land a (Z.ones 6));
          rewrite (Z.land_ones a 6) by lia
      | |- context [Z.land ?a 0xff] =>
          change (Z.land a 0xff) with (Z.land a (Z.ones 8));
          rewrite (Z.land_ones a 8) by lia
      | |- context [Z.land ?a 0x0f] =>
          change (Z.land a 0x0f) with (Z.land a (Z.ones 4));
          rewrite (Z.land_ones a 4) by lia
      | |- context [Z.land ?a 3] =>
          change (Z.land a 3) with (Z.land a (Z.ones 2));
          rewrite (Z.land_ones a 2) by lia
      end ];
  change (2 ^ 2) with 4; change (2 ^ 4) with 16; change (2 ^ 6) with 64;
  change (2 ^ 8) with 256; change (2 ^ 12) with 4096;
  change (2 ^ 18) with 262144.

Ltac euclid := shifts_to_arith; Z.to_euclidean_division_equations; lia.

(** The innermost [lor] of a shifted value and a smaller one, as a sum. *)
Ltac lor_to_add :=
  repeat match goal with
    | |- context [Z.lor (Z.shiftl ?x ?k) ?y] =>
        lazymatch x with
        | context [Z.lor] => fail
        | _ => lazymatch y with
               | context [Z.lor] => fail
               | _ => rewrite (lor_shiftl_add x y k) by (try lia; euclid)
               end
        end
    end.

Ltac bits := lor_to_add; euclid.

(** ** Base64 *)

Section Base64Facts.

Import Base64.

Lemma list_ind3 {A} (P : list A -> Prop) :
  P [] -> (forall a, P [a]) -> (forall a b, P [a; b]) ->
  (forall a b c l, P l -> P (a :: b :: c :: l)) ->
  forall l, P l.
Proof.
  intros H0 H1 H2 H3.
  fix rec 1.
  intros [|a [|b [|c l]]]; [apply H0 | apply H1 | apply H2 | apply H3, rec].
Qed.

Lemma b2a_sextet (x : Z) :
  0 <= x < 64 ->
  table_a2b_base64 (b2a x) = x /\ (b2a x =? BASE64_PAD) = false.
Proof.
  intros Hx.
  pose proof (forall_below 64
    (fun x => (table_a2b_base64 (b2a x) =? x)
              && negb (b2a x =? BASE64_PAD)) eq_refl x Hx) as H.
  cbv beta in H. apply andb_true_iff in H. destruct H as [H1 H2].
  apply Z.eqb_eq in H1. apply negb_true_iff in H2. auto.
Qed.

Lemma b2a_ascii (x : Z) : 0 <= b2a x < 128.
Proof.
  unfold b2a.
  destruct (nth_in_or_default (Z.to_nat x) table_b2a_base64 0) as [Hin| ->];
    [|lia].
  assert (F : forallb (fun c => (0 <=? c) && (c <? 128)) table_b2a_base64
              = true) by reflexivity.
  rewrite forallb_forall in F. specialize (F _ Hin).
  apply andb_true_iff in F. lia.
Qed.

Lemma a2b_loop_sextet (x : Z) (rest : pybytes) (q lc pads : Z)
      (out : pybytes) :
  0 <= x < 64 ->
  a2b_loop (b2a x :: rest) q lc pads out
  = match q with
    | 0 => a2b_loop rest 1 x 0 out
    | 1 => a2b_loop rest 2 (Z.land x 0x0f) 0
             (out ++ [Z.land (Z.lor (Z.shiftl lc 2) (Z.shiftr x 4)) 0xff])
    | 2 => a2b_loop rest 3 (Z.land x 0x03) 0
             (out ++ [Z.land (Z.lor (Z.shiftl lc 4) (Z.shiftr x 2)) 0xff])
    | _ => a2b_loop rest 0 0 0
             (out ++ [Z.land (Z.lor (Z.shiftl lc 6) x) 0xff])
    end.
Proof.
  intros Hx. destruct (b2a_sextet x Hx) as [Ht Hp].
  cbn [a2b_loop]. rewrite Hp, Ht.
  destruct (Z.leb_spec 64 x); [lia|]. reflexivity.
Qed.

(** The three octets a decoded group of four characters gives back. *)
Lemma group_octets (b1 b2 b3 : Z) :
  octet b1 -> octet b2 -> octet b3 ->
  let s1 := Z.shiftr b1 2 in
  let s2 := Z.lor (Z.shiftl (Z.land b1 3) 4) (Z.shiftr b2 4) in
  let s3 := Z.lor (Z.shiftl (Z.land b2 0xf) 2) (Z.shiftr b3 6) in
  let s4 := Z.land b3 0x3f in
  (0 <= s1 < 64 /\ 0 <= s2 < 64 /\ 0 <= s3 < 64 /\ 0 <= s4 < 64)
  /\ Z.land (Z.lor (Z.shiftl s1 2) (Z.shiftr s2 4)) 0xff = b1
  /\ Z.land (Z.lor (Z.shiftl (Z.land s2 0x0f) 4) (Z.shiftr s3 2)) 0xff = b2
  /\ Z.land (Z.lor (Z.shiftl (Z.land s3 0x03) 6) s4) 0xff = b3.
Proof.
  unfold octet. intros H1 H2 H3. cbv zeta.
  repeat split; bits.
Qed.

Lemma a2b_loop_b64encode (bs : pybytes) :
  Forall octet bs ->
  forall lc pads out,
    a2b_loop (b64encode bs) 0 lc pads out = Ret (out ++ bs).
Proof.
  induction bs as [|b1|b1 b2|b1 b2 b3 bs IH] using list_ind3;
    intros HF lc pads out.
  - cbn. now rewrite app_nil_r.
  - apply Forall_cons_iff in HF. destruct HF as [H1 _].
    assert (H0 : octet 0) by (unfold octet; lia).
    destruct (group_octets b1 0 0 H1 H0 H0) as ((R1 & R2 & _) & E1 & _).
    cbv zeta in *.
    change (Z.shiftr 0 4) with 0 in *. rewrite Z.lor_0_r in *.
    cbn [b64encode].
    rewrite a2b_loop_sextet by assumption.
    rewrite a2b_loop_sextet by assumption.
    rewrite E1. reflexivity.
  - apply Forall_cons_iff in HF. destruct HF as [H1 HF].
    apply Forall_cons_iff in HF. destruct HF as [H2 _].
    assert (H0 : octet 0) by (unfold octet; lia).
    destruct (group_octets b1 b2 0 H1 H2 H0) as ((R1 & R2 & R3 & _) & E1 & E2 & _).
    cbv zeta in *.
    change (Z.shiftr 0 6) with 0 in *. rewrite Z.lor_0_r in *.
    cbn [b64encode].
    rewrite !a2b_loop_sextet by assumption.
    rewrite E1, E2, <- app_assoc. reflexivity.
  - apply Forall_cons_iff in HF. destruct HF as [H1 HF].
    apply Forall_cons_iff in HF. destruct HF as [H2 HF].
    apply Forall_cons_iff in HF. destruct HF as [H3 HF].
    destruct (group_octets b1 b2 b3 H1 H2 H3)
      as ((R1 & R2 & R3 & R4) & E1 & E2 & E3).
    cbv zeta in *.
    cbn [b64encode app].
    rewrite !a2b_loop_sextet by assumption.
    rewrite E1, E2, E3, IH by assumption.
    now rewrite <- !app_assoc.
Qed.

Lemma isascii_b64encode (bs : pybytes) : isascii (b64encode bs) = true.
Proof.
  induction bs as [|b1|b1 b2|b1 b2 b3 bs IH] using list_ind3;
    unfold isascii in *; cbn [b64encode forallb app]; rewrite ?IH;
    repeat match goal with
      | |- context [b2a ?x] =>
          let H := fresh in
          pose proof (b2a_ascii x) as H;
          destruct (Z.leb_spec 0 (b2a x)); [|lia];
          destruct (Z.ltb_spec (b2a x) 128); [|lia];
          clear H; generalize (b2a x); intros
      end; reflexivity.
Qed.

Theorem b64decode_b64encode (bs : pybytes) :
  Forall octet bs -> b64decode (b64encode bs) = Ret bs.
Proof.
  intros HF. unfold b64decode, _bytes_from_decode_data.
  rewrite isascii_b64encode. cbn [bind]. unfold a2b_base64.
  now rewrite a2b_loop_b64encode.
Qed.

Lemma a2b_loop_filter (s : pybytes) :
  forall q lc pads out,
    a2b_loop (filter Base64.significant s) q lc pads out = a2b_loop s q lc pads out.
Proof.
  induction s as [|c s IH]; intros q lc pads out; [reflexivity|].
  cbn [filter]. unfold significant at 1, in_alphabet.
  destruct (c =? BASE64_PAD) eqn:Ep; cbn [orb].
  - cbn [a2b_loop]. rewrite Ep.
    repeat match goal with
      | |- context [if ?b then _ else _] => destruct b
      end; auto.
  - destruct (table_a2b_base64 c <? 64) eqn:Et.
    + cbn [a2b_loop]. rewrite Ep.
      destruct (64 <=? table_a2b_base64 c); [apply IH|].
      destruct q as [|[ [] | [] | ]|]; apply IH.
    + cbn [a2b_loop]. rewrite Ep.
      destruct (Z.leb_spec 64 (table_a2b_base64 c)); [apply IH|].
      apply Z.ltb_ge in Et. lia.
Qed.

Lemma isascii_filter (f : Z -> bool) (s : pystr) :
  isascii s = true -> isascii (filter f s) = true.
Proof.
  unfold isascii. rewrite !forallb_forall. intros H x Hx.
  apply filter_In in Hx. now apply H.
Qed.

Lemma a2b_loop_exn (s : pybytes) :
  forall q lc pads out e,
    a2b_loop s q lc pads out = Raise e -> e = BinasciiError.
Proof.
  induction s as [|c s IH]; intros q lc pads out e; cbn [a2b_loop].
  - destruct (negb (q =? 0)); congruence.
  - repeat match goal with
      | |- context [if ?b then _ else _] => destruct b
      end; try congruence; try apply IH.
    destruct q as [|[ [] | [] | ]|]; apply IH.
Qed.

Lemma b64decode_filter (s : pystr) :
  isascii s = true ->
  b64decode (filter Base64.significant s) = b64decode s.
Proof.
  intros Ha. unfold b64decode, _bytes_from_decode_data.
  rewrite Ha, (isascii_filter _ _ Ha). cbn [bind].
  apply a2b_loop_filter.
Qed.

Lemma b64decode_ascii (s : pystr) :
  isascii s = true ->
  (exists bs, b64decode s = Ret bs) \/ b64decode s = Raise BinasciiError.
Proof.
  intros Ha. unfold b64decode, _bytes_from_decode_data. rewrite Ha.
  cbn [bind]. unfold a2b_base64.
  destruct (a2b_loop s 0 0 0 []) as [bs|e] eqn:E; [eauto|].
  right. f_equal. eapply a2b_loop_exn, E.
Qed.

Lemma b64decode_non_ascii (s : pystr) :
  isascii s = false -> b64decode s = Raise ValueError.
Proof.
  intros Ha. unfold b64decode, _bytes_from_decode_data. now rewrite Ha.
Qed.

End Base64Facts.

(** ** UTF-8 *)

Section Utf8Facts.

Import Utf8.

Lemma some_inj {A} (x y : A) : Some x = Some y -> x = y.
Proof. congruence. Qed.

Lemma encode_char_cases (ch : Z) (b : pybytes) :
  encode_char ch = Some b ->
  (0 <= ch < 0x80 /\ b = [ch])
  \/ (0x80 <= ch < 0x800 /\ b = [0xC0 + ch / 64; 0x80 + ch mod 64])
  \/ (0x800 <= ch < 0x10000 /\ ~ (0xD800 <= ch <= 0xDFFF)
      /\ b = [0xE0 + ch / 4096; 0x80 + (ch / 64) mod 64; 0x80 + ch mod 64])
  \/ (0x10000 <= ch <= 0x10FFFF
      /\ b = [0xF0 + ch / 262144; 0x80 + (ch / 4096) mod 64;
              0x80 + (ch / 64) mod 64; 0x80 + ch mod 64]).
Proof.
  unfold encode_char, is_surrogate.
  destruct (Z.ltb_spec ch 0); [discriminate|].
  destruct (Z.ltb_spec 0x10FFFF ch); [discriminate|]. cbn [orb].
  destruct (Z.ltb_spec ch 0x80); [intros E; apply some_inj in E; subst b; left; split; [lia|reflexivity]|].
  destruct (Z.ltb_spec ch 0x800).
  { intros E; apply some_inj in E; subst b. right; left. split; [lia|].
    rewrite (lor_add_low 0xC0 _ 5), (lor_add_low 0x80 _ 6)
      by (try reflexivity; try lia; euclid).
    shifts_to_arith. reflexivity. }
  destruct (Z.leb_spec 0xD800 ch), (Z.leb_spec ch 0xDFFF); cbn [andb];
    try discriminate.
  all: destruct (Z.ltb_spec ch 0x10000); intros E; apply some_inj in E; subst b.
  all: try (right; right; left; split; [lia|split;[lia|]];
    rewrite (lor_add_low 0xE0 _ 4), !(lor_add_low 0x80 _ 6)
      by (try reflexivity; try lia; euclid);
    shifts_to_arith; reflexivity).
  all: try (right; right; right; split; [lia|];
    rewrite (lor_add_low 0xF0 _ 3), !(lor_add_low 0x80 _ 6)
      by (try reflexivity; try lia; euclid);
    shifts_to_arith; reflexivity).
Qed.

Local Ltac decide_ifs :=
  repeat first
    [ progress cbn [negb andb orb]
    | match goal with
      | |- context [if ?a <? ?b then _ else _] =>
          destruct (Z.ltb_spec a b); [try (exfalso; euclid) | try (exfalso; euclid)]
      | |- context [?a <? ?b] =>
          destruct (Z.ltb_spec a b); [try (exfalso; euclid) | try (exfalso; euclid)]
      | |- context [?a <=? ?b] =>
          destruct (Z.leb_spec a b); [try (exfalso; euclid) | try (exfalso; euclid)]
      | |- context [?a =? ?b] =>
          destruct (Z.eqb_spec a b); [try (exfalso; euclid) | try (exfalso; euclid)]
      end ].

Lemma decode_encode_char (ch : Z) (b rest : pybytes) :
  encode_char ch = Some b ->
  decode (b ++ rest) = option_map (cons ch) (decode rest).
Proof.
  intros E.
  destruct (encode_char_cases ch b E)
    as [(R & ->)|[(R & ->)|[(R & NS & ->)|(R & ->)]]];
    cbn [app decode]; unfold is_continuation_byte; decide_ifs;
    try reflexivity; do 2 f_equal; euclid.
Qed.

Lemma encode_char_octets (ch : Z) (b : pybytes) :
  encode_char ch = Some b -> Forall octet b.
Proof.
  intros E.
  destruct (encode_char_cases ch b E)
    as [(R & ->)|[(R & ->)|[(R & NS & ->)|(R & ->)]]];
    repeat constructor; unfold octet; euclid.
Qed.

Theorem decode_encode (s : pystr) (bs : pybytes) :
  encode s = Some bs -> decode bs = Some s.
Proof.
  revert bs; induction s as [|ch s IH]; intros bs; cbn [encode].
  - intros E. apply some_inj in E. subst bs. reflexivity.
  - destruct (encode_char ch) as [b|] eqn:Ec; [|discriminate].
    destruct (encode s) as [bs'|] eqn:Es; [|discriminate].
    intros E. apply some_inj in E. subst bs.
    rewrite (decode_encode_char _ _ _ Ec), (IH _ eq_refl). reflexivity.
Qed.

(** Every string of Unicode scalar values has a UTF-8 encoding. *)
Lemma encode_scalar (s : pystr) :
  Forall (fun ch => 0 <= ch <= 0x10FFFF /\ is_surrogate ch = false) s ->
  exists bs, encode s = Some bs.
Proof.
  induction 1 as [|ch s [R NS] _ [bs IH]]; cbn [encode]; [eauto|].
  rewrite IH.
  assert (E : exists b, encode_char ch = Some b).
  { unfold encode_char. rewrite NS.
    destruct (Z.ltb_spec ch 0); [lia|].
    destruct (Z.ltb_spec 0x10FFFF ch); [lia|]. cbn [orb].
    repeat match goal with
      | |- context [if ?c then _ else _] => destruct c
      end; eauto. }
  destruct E as [b ->]. eauto.
Qed.

Lemma encode_octets (s : pystr) (bs : pybytes) :
  encode s = Some bs -> Forall octet bs.
Proof.
  revert bs; induction s as [|ch s IH]; intros bs; cbn [encode].
  - intros E. apply some_inj in E. subst bs. constructor.
  - destruct (encode_char ch) as [b|] eqn:Ec; [|discriminate].
    destruct (encode s) as [bs'|] eqn:Es; [|discriminate].
    intros E. apply some_inj in E. subst bs.
    apply Forall_app. split; [eapply encode_char_octets; eassumption|].
    now apply IH.
Qed.

End Utf8Facts.

(** ** The Basic-Auth pipeline *)

Section Stages.

Import BasicAuth.

Lemma extract_base64_Some (v : value) (r : pystr) :
  extract_base64_authorization_header v = Some r <-> v = PyStr (Basic_ ++ r).
Proof.
  split.
  - destruct v as [|s| |]; cbn [extract_base64_authorization_header];
      try discriminate.
    destruct (startswith s Basic_) eqn:E; cbn [negb]; [|discriminate].
    intros H. apply some_inj in H. subst r. f_equal.
    now apply startswith_inv.
  - intros ->. cbn [extract_base64_authorization_header].
    rewrite startswith_app. cbn [negb]. now rewrite skipn_prefix.
Qed.

Lemma extract_base64_None (s : pystr) :
  startswith s Basic_ = false ->
  extract_base64_authorization_header (PyStr s) = None.
Proof.
  intros H. cbn [extract_base64_authorization_header]. now rewrite H.
Qed.

(** The decode stage in terms of the two library calls. *)
Lemma decode_base64_unfold (s : pystr) :
  decode_base64_authorization_header (PyStr s)
  = match Base64.b64decode s with
    | Ret bs => Ret (Utf8.decode bs)
    | Raise ValueError => Raise ValueError
    | Raise _ => Ret None
    end.
Proof.
  cbn [decode_base64_authorization_header]. unfold decode_utf8.
  destruct (Base64.b64decode s) as [bs|[]]; cbn; try reflexivity.
  destruct (Utf8.decode bs); reflexivity.
Qed.

Lemma contains_colon_app (a b : pystr) : contains colon (a ++ colon :: b) = true.
Proof.
  unfold contains. rewrite existsb_app. cbn [existsb].
  now rewrite Z.eqb_refl, orb_true_r.
Qed.

Lemma split_first_app (a b : pystr) :
  ~ In colon a -> split_first colon (a ++ colon :: b) = (a, b).
Proof.
  induction a as [|c a IH]; intros Hn; cbn [app split_first].
  - now rewrite Z.eqb_refl.
  - destruct (Z.eqb_spec c colon) as [->|_].
    + exfalso. apply Hn. now left.
    + rewrite IH; [reflexivity|]. intros Hin. apply Hn. now right.
Qed.

Lemma split_first_first_colon (s a b : pystr) :
  contains colon s = true -> split_first colon s = (a, b) ->
  s = a ++ colon :: b /\ ~ In colon a.
Proof.
  unfold contains.
  revert a b; induction s as [|c s IH]; intros a b;
    cbn [existsb split_first]; [discriminate|].
  rewrite (Z.eqb_sym colon c).
  destruct (Z.eqb_spec c colon) as [->|Hc]; cbn [orb].
  - intros _ E. inversion E. split; [reflexivity|]. intros [].
  - destruct (split_first colon s) as [a' b'] eqn:Es. intros Hs E.
    inversion E; subst. destruct (IH a' b Hs eq_refl) as [-> Hn].
    split; [reflexivity|]. intros [H|H]; [congruence | contradiction].
Qed.

Lemma decode_base64_b64encode (bs : pybytes) :
  Forall octet bs ->
  decode_base64_authorization_header (PyStr (Base64.b64encode bs))
  = Ret (Utf8.decode bs).
Proof.
  intros HF. rewrite decode_base64_unfold. now rewrite b64decode_b64encode.
Qed.

(** C3, as stated, fails: a character outside the alphabet does not make
    the decode stage return nothing; [b64decode] steps over it. *)
Lemma decode_base64_steps_over_foreign_character :
  let s := lit " aGk=" in
  (exists c, In c s /\ Base64.in_alphabet c = false /\ c <> Base64.BASE64_PAD)
  /\ decode_base64_authorization_header (PyStr s) = Ret (Some (lit "hi")).
Proof.
  split.
  - exists 32. repeat split; [left; reflexivity | discriminate].
  - reflexivity.
Qed.

(** C3, amended. On a string of ASCII characters the decode stage never
    raises, reads only the characters of the alphabet and the pad
    character, and returns the text exactly when [b64decode] accepts the
    input and the octets it gives are valid UTF-8, nothing otherwise. On
    the standard encoding of a sequence of octets it returns their UTF-8
    text when they have one, nothing when they have none. *)
Theorem decode_base64_ascii :
  (forall s : pystr,
      isascii s = true ->
      decode_base64_authorization_header (PyStr s)
      = decode_base64_authorization_header (PyStr (filter Base64.significant s))
      /\ (forall text,
             decode_base64_authorization_header (PyStr s) = Ret (Some text)
             <-> exists bs, Base64.b64decode s = Ret bs
                            /\ Utf8.decode bs = Some text)
      /\ (decode_base64_authorization_header (PyStr s) = Ret None
          <-> Base64.b64decode s = Raise BinasciiError
              \/ exists bs, Base64.b64decode s = Ret bs
                            /\ Utf8.decode bs = None)
      /\ (forall e, decode_base64_authorization_header (PyStr s) <> Raise e))
  /\ (forall bs : pybytes,
         Forall octet bs ->
         decode_base64_authorization_header (PyStr (Base64.b64encode bs))
         = Ret (Utf8.decode bs)).
Proof.
  split.
  - intros s Ha. rewrite !decode_base64_unfold.
    rewrite (b64decode_filter s Ha).
    split; [reflexivity|].
    destruct (b64decode_ascii s Ha) as [[bs ->]| ->].
    + split; [|split].
      * intros text. split.
        -- intros E. exists bs. split; [reflexivity | congruence].
        -- intros (bs' & E1 & E2). congruence.
      * split.
        -- intros E. right. exists bs. split; [reflexivity | congruence].
        -- intros [E|(bs' & E1 & E2)]; congruence.
      * intros e. discriminate.
    + split; [|split].
      * intros text. split; [discriminate|].
        intros (bs' & E1 & _). discriminate.
      * split; [now left | reflexivity].
      * intros e. discriminate.
  - apply decode_base64_b64encode.
Qed.

(** C5. Round trip: the header made of the scheme prefix and the Base64
    text of the UTF-8 octets of [identifier:secret], the identifier
    without a colon, goes through scheme strip, decode and split and
    comes out as the pair. *)
Theorem credentials_round_trip (identifier secret : pystr) (octets : pybytes) :
  ~ In colon identifier ->
  Utf8.encode (identifier ++ colon :: secret) = Some octets ->
  let header := Basic_ ++ Base64.b64encode octets in
  exists base64_header decoded,
    extract_base64_authorization_header (PyStr header) = Some base64_header
    /\ decode_base64_authorization_header (PyStr base64_header)
       = Ret (Some decoded)
    /\ extract_user_credentials (PyStr decoded)
       = (Some identifier, Some secret).
Proof.
  intros Hn He header.
  exists (Base64.b64encode octets), (identifier ++ colon :: secret).
  split; [|split].
  - now apply extract_base64_Some.
  - rewrite decode_base64_b64encode by (eapply encode_octets; eassumption).
    now rewrite (decode_encode _ _ He).
  - cbn [extract_user_credentials].
    rewrite contains_colon_app, split_first_app by assumption. reflexivity.
Qed.

End Stages.

Import BasicAuth.

Lemma decode_base64_ascii_witness :
  let s := lit " aGk=" in
  let bs := [104; 105] in
  isascii s = true
  /\ Forall octet bs
  /\ decode_base64_authorization_header (PyStr s)
     = decode_base64_authorization_header (PyStr (filter Base64.significant s))
  /\ decode_base64_authorization_header (PyStr (Base64.b64encode bs))
     = Ret (Utf8.decode bs).
Proof.
  assert (Ha : isascii (lit " aGk=") = true) by reflexivity.
  assert (Hb : Forall octet [104; 105])
    by (repeat constructor; unfold octet; lia).
  split; [exact Ha|]. split; [exact Hb|]. split.
  - exact (proj1 (proj1 decode_base64_ascii _ Ha)).
  - exact (proj2 decode_base64_ascii _ Hb).
Defined.

Lemma credentials_round_trip_witness :
  let identifier := lit "bob" in
  let secret := lit "pa:ss" in
  let octets := lit "bob:pa:ss" in
  ~ In colon identifier
  /\ Utf8.encode (identifier ++ colon :: secret) = Some octets
  /\ exists base64_header decoded,
      extract_base64_authorization_header
        (PyStr (Basic_ ++ Base64.b64encode octets)) = Some base64_header
      /\ decode_base64_authorization_header (PyStr base64_header)
         = Ret (Some decoded)
      /\ extract_user_credentials (PyStr decoded)
         = (Some identifier, Some secret).
Proof.
  assert (Hn : ~ In colon (lit "bob"))
    by (intros [H|[H|[H|[]]]]; discriminate H).
  assert (He : Utf8.encode (lit "bob" ++ colon :: lit "pa:ss")
               = Some (lit "bob:pa:ss")) by reflexivity.
  split; [exact Hn|]. split; [exact He|].
  exact (credentials_round_trip _ _ _ Hn He).
Defined.

(** ** Resolving the principal *)

Section Resolve.

Variable User : Type.
Variable search : pystr -> list User.
Variable is_valid_password : User -> pystr -> bool.

Local Abbreviation current_user :=
  (current_user User search is_valid_password).
Local Abbreviation user_object_from_credentials :=
  (user_object_from_credentials User search is_valid_password).

Lemma user_object_Some (email pwd : pystr) (u : User) :
  user_object_from_credentials (PyStr email) (PyStr pwd) = Some u
  <-> exists others, search email = u :: others
                     /\ is_valid_password u pwd = true.
Proof.
  cbn [BasicAuth.user_object_from_credentials].
  destruct (search email) as [|u' others].
  - split; [discriminate | intros (o & E & _); discriminate].
  - destruct (is_valid_password u' pwd) eqn:Ev; cbn [negb].
    + split.
      * intros E. apply some_inj in E. subst u'. eauto.
      * intros (o & E & _). congruence.
    + split; [discriminate|]. intros (o & E & Hv). congruence.
Qed.

(** What the pipeline returns once a header is there. *)
Lemma current_user_header (request : option Request) (header : pystr) :
  authorization_header request = Some header ->
  current_user request
  = match extract_base64_authorization_header (PyStr header) with
    | None => Ret None
    | Some base64_header =>
        match decode_base64_authorization_header (PyStr base64_header) with
        | Raise e => Raise e
        | Ret None => Ret None
        | Ret (Some decoded) =>
            if contains colon decoded then
              let (email, pwd) := split_first colon decoded in
              Ret (user_object_from_credentials (PyStr email) (PyStr pwd))
            else Ret None
        end
    end.
Proof.
  intros Hh. unfold BasicAuth.current_user. rewrite Hh.
  destruct (extract_base64_authorization_header (PyStr header)) as [b|];
    [|reflexivity].
  destruct (decode_base64_authorization_header (PyStr b)) as [[d|]|e];
    cbn [bind]; try reflexivity.
  cbn [extract_user_credentials].
  destruct (contains colon d); cbn [negb]; [|reflexivity].
  destruct (split_first colon d); reflexivity.
Qed.

(** X19. A principal is returned exactly when the five stages succeed: the
    header is there, carries the scheme prefix, its payload decodes, the
    text has a colon, and the first user the store returns for the text
    before the first colon accepts the text after it. *)
Theorem current_user_principal_iff (request : option Request) (u : User) :
  current_user request = Ret (Some u)
  <-> exists header base64_header decoded email pwd others,
      authorization_header request = Some header
      /\ extract_base64_authorization_header (PyStr header)
         = Some base64_header
      /\ decode_base64_authorization_header (PyStr base64_header)
         = Ret (Some decoded)
      /\ contains colon decoded = true
      /\ split_first colon decoded = (email, pwd)
      /\ search email = u :: others
      /\ is_valid_password u pwd = true.
Proof.
  split.
  - destruct (authorization_header request) as [header|] eqn:Hh.
    2:{ unfold BasicAuth.current_user. rewrite Hh. discriminate. }
    rewrite (current_user_header _ _ Hh).
    destruct (extract_base64_authorization_header (PyStr header))
      as [b|] eqn:Hb; [|discriminate].
    destruct (decode_base64_authorization_header (PyStr b))
      as [[d|]|e] eqn:Hd; try discriminate.
    destruct (contains colon d) eqn:Hc; [|discriminate].
    destruct (split_first colon d) as [email pwd] eqn:Hs.
    intros E. assert (E' : user_object_from_credentials (PyStr email)
                             (PyStr pwd) = Some u) by congruence.
    apply user_object_Some in E'. destruct E' as (others & Es & Hv).
    exists header, b, d, email, pwd, others. auto 10.
  - intros (header & b & d & email & pwd & others
            & Hh & Hb & Hd & Hc & Hs & Es & Hv).
    rewrite (current_user_header _ _ Hh), Hb, Hd, Hc, Hs.
    f_equal. apply user_object_Some. eauto.
Qed.

(** The pipeline raises exactly on a payload that is not ASCII, and then
    a [ValueError]. *)
Lemma current_user_Raise (request : option Request) (e : exn) :
  current_user request = Raise e
  <-> e = ValueError
      /\ exists header base64_header,
        authorization_header request = Some header
        /\ extract_base64_authorization_header (PyStr header)
           = Some base64_header
        /\ isascii base64_header = false.
Proof.
  split.
  - destruct (authorization_header request) as [header|] eqn:Hh.
    2:{ unfold BasicAuth.current_user. rewrite Hh. discriminate. }
    rewrite (current_user_header _ _ Hh).
    destruct (extract_base64_authorization_header (PyStr header))
      as [b|] eqn:Hb; [|discriminate].
    rewrite decode_base64_unfold.
    destruct (isascii b) eqn:Ha.
    + destruct (b64decode_ascii b Ha) as [[bs ->]| ->]; [|discriminate].
      destruct (Utf8.decode bs) as [d|]; [|discriminate].
      destruct (contains colon d); [|discriminate].
      destruct (split_first colon d); discriminate.
    + rewrite (b64decode_non_ascii b Ha). intros E.
      split; [congruence|]. eauto.
  - intros (-> & header & b & Hh & Hb & Ha).
    rewrite (current_user_header _ _ Hh), Hb, decode_base64_unfold.
    now rewrite (b64decode_non_ascii b Ha).
Qed.

(** C8. The scheme-strip stage returns the text after the prefix exactly
    on a string that starts with ["Basic "], and nothing on every other
    string; a header of the [Bearer] scheme therefore resolves to no
    principal, whatever its payload. *)
Theorem extract_base64_scheme :
  (forall (v : value) (r : pystr),
      extract_base64_authorization_header v = Some r
      <-> v = PyStr (Basic_ ++ r))
  /\ (forall s : pystr,
         startswith s Basic_ = false ->
         extract_base64_authorization_header (PyStr s) = None)
  /\ (forall (request : option Request) (payload : pystr),
         authorization_header request = Some (lit "Bearer " ++ payload) ->
         current_user request = Ret None).
Proof.
  split; [exact extract_base64_Some|]. split; [exact extract_base64_None|].
  intros request payload Hh.
  rewrite (current_user_header _ _ Hh).
  now rewrite extract_base64_None by reflexivity.
Qed.

(** C10. A header that is the bare prefix passes scheme strip and decode
    as the empty string, fails at the split, and resolves to no
    principal. *)
Theorem current_user_empty_payload (request : option Request) :
  authorization_header request = Some Basic_ ->
  extract_base64_authorization_header (PyStr Basic_) = Some []
  /\ decode_base64_authorization_header (PyStr []) = Ret (Some [])
  /\ extract_user_credentials (PyStr []) = (None, None)
  /\ current_user request = Ret None.
Proof.
  intros Hh. repeat split.
  now rewrite (current_user_header _ _ Hh).
Qed.

(** C4. The pipeline raises: a payload with a character that is not ASCII
    makes [b64decode] raise a [ValueError], which the [except] clause of
    the decode stage does not name and [current_user] does not catch. *)
Theorem current_user_raises_on_non_ascii_payload
        (request : option Request) (payload : pystr) :
  authorization_header request = Some (Basic_ ++ payload) ->
  isascii payload = false ->
  current_user request = Raise ValueError.
Proof.
  intros Hh Ha. apply current_user_Raise. split; [reflexivity|].
  exists (Basic_ ++ payload), payload.
  split; [assumption|]. split; [|assumption].
  now apply extract_base64_Some.
Qed.

(** C1. On the header ["Basic é"] the decode stage yields no text, and
    the pipeline does not return the absent principal: it raises. *)
Theorem current_user_failed_decode_not_absent :
  let header := Basic_ ++ [233] in
  let request := request_with header in
  extract_base64_authorization_header (PyStr header) = Some [233]
  /\ (forall text,
         decode_base64_authorization_header (PyStr [233])
         <> Ret (Some text))
  /\ current_user request <> Ret None
  /\ current_user request = Raise ValueError.
Proof.
  cbv zeta. split; [reflexivity|]. split; [discriminate|].
  split; [discriminate | reflexivity].
Qed.

End Resolve.

Lemma extract_base64_scheme_witness :
  startswith (lit "Bearer xyz") Basic_ = false
  /\ extract_base64_authorization_header (PyStr (lit "Bearer xyz")) = None
  /\ authorization_header (request_with (lit "Bearer xyz"))
     = Some (lit "Bearer " ++ lit "xyz")
  /\ current_user unit no_users reject (request_with (lit "Bearer xyz"))
     = Ret None.
Proof.
  assert (H1 : startswith (lit "Bearer xyz") Basic_ = false) by reflexivity.
  assert (H2 : authorization_header (request_with (lit "Bearer xyz"))
               = Some (lit "Bearer " ++ lit "xyz")) by reflexivity.
  split; [exact H1|]. split; [|split; [exact H2|]].
  - exact (proj1 (proj2 (extract_base64_scheme unit no_users reject)) _ H1).
  - exact (proj2 (proj2 (extract_base64_scheme unit no_users reject)) _ _ H2).
Defined.

Lemma current_user_empty_payload_witness :
  authorization_header (request_with Basic_) = Some Basic_
  /\ current_user unit no_users reject (request_with Basic_) = Ret None.
Proof.
  assert (H : authorization_header (request_with Basic_) = Some Basic_)
    by reflexivity.
  split; [exact H|].
  exact (proj2 (proj2 (proj2
           (current_user_empty_payload unit no_users reject _ H)))).
Defined.

Lemma current_user_raises_on_non_ascii_payload_witness :
  authorization_header (request_with (Basic_ ++ [233]))
  = Some (Basic_ ++ [233])
  /\ isascii [233] = false
  /\ current_user unit no_users reject (request_with (Basic_ ++ [233]))
     = Raise ValueError.
Proof.
  assert (H : authorization_header (request_with (Basic_ ++ [233]))
              = Some (Basic_ ++ [233])) by reflexivity.
  assert (Ha : isascii [233] = false) by reflexivity.
  split; [exact H|]. split; [exact Ha|].
  exact (current_user_raises_on_non_ascii_payload unit no_users reject
           _ _ H Ha).
Defined.

(** ** More on the access gate *)

Section Patterns.

Import Fnmatch.

Lemma translate_loop_plain (pre rest : pystr) :
  plain pre = true ->
  forall res,
    translate_loop 0 res (pre ++ rest)
    = translate_loop 0 (res ++ map Lit pre) rest.
Proof.
  induction pre as [|c pre IH]; intros Hp res; cbn [app map].
  - now rewrite app_nil_r.
  - cbn [plain forallb] in Hp. apply andb_true_iff in Hp.
    destruct Hp as [Hc Hp]. unfold special in Hc.
    rewrite negb_true_iff, !orb_false_iff in Hc.
    destruct Hc as [[Hs Hq] Hb].
    cbn [translate_loop]. rewrite Hs, Hq, Hb.
    rewrite (IH Hp). now rewrite <- app_assoc.
Qed.

Lemma re_match_lits (pre : pystr) (ps : list piece) :
  forall name,
    re_match (map Lit pre ++ ps) name
    = startswith name pre && re_match ps (skipn (List.length pre) name).
Proof.
  induction pre as [|c pre IH]; intros name; cbn [map app List.length].
  - reflexivity.
  - destruct name as [|x name]; cbn [re_match startswith skipn accepts];
      [reflexivity|].
    rewrite IH. now rewrite andb_assoc.
Qed.

Lemma re_match_star (name : pystr) : re_match [STAR] name = true.
Proof.
  induction name as [|c name IH]; [reflexivity|].
  cbn [re_match] in *. exact IH.
Qed.

Lemma startswith_all (a b : pystr) :
  startswith a b && match skipn (List.length b) a with
                    | [] => true
                    | _ :: _ => false
                    end
  = str_eqb a b.
Proof.
  revert a; induction b as [|y b IH]; intros [|x a];
    cbn [startswith skipn List.length str_eqb andb]; try reflexivity.
  rewrite <- IH. now rewrite andb_assoc.
Qed.

(** A pattern without special characters matches its own text only. *)
Lemma fnmatch_plain (name pat : pystr) :
  plain pat = true -> fnmatch name pat = str_eqb name pat.
Proof.
  intros Hp. unfold fnmatch, fnmatchcase, normcase, translate.
  rewrite <- (app_nil_r pat) at 1.
  rewrite (translate_loop_plain pat [] Hp). cbn [translate_loop app].
  rewrite <- (app_nil_r (map Lit pat)), re_match_lits. cbn [re_match].
  apply startswith_all.
Qed.

Lemma add_star_lits (pre : pystr) :
  add_star (map Lit pre) = map Lit pre ++ [STAR].
Proof.
  unfold add_star. rewrite <- map_rev.
  destruct (rev pre); reflexivity.
Qed.

(** A plain text followed by one star matches the names that start with
    the text. *)
Lemma fnmatch_plain_star (name pre : pystr) :
  plain pre = true ->
  fnmatch name (pre ++ [ch_star]) = startswith name pre.
Proof.
  intros Hp. unfold fnmatch, fnmatchcase, normcase, translate.
  rewrite (translate_loop_plain pre [ch_star] Hp). cbn [translate_loop app].
  rewrite Z.eqb_refl, add_star_lits, re_match_lits, re_match_star.
  apply andb_true_r.
Qed.

End Patterns.

Section Gate.

Import Auth.

Lemma normalized_idempotent (p : pystr) : normalized (normalized p) = normalized p.
Proof.
  unfold normalized at 1. now rewrite normalized_endswith.
Qed.

Lemma normalized_append (p : pystr) :
  endswith p slash = false -> normalized p = p ++ slash.
Proof. intros H. unfold normalized. now rewrite H. Qed.

Lemma require_auth_false_entry (p : pystr) (l : list pystr) :
  require_auth (Some p) (Some l) = false
  <-> exists e, In e l
                /\ (e = normalized p
                    \/ Fnmatch.fnmatch (normalized p) e = true).
Proof.
  destruct l as [|e0 l].
  - split; [discriminate | intros (e & [] & _)].
  - rewrite require_auth_unfold by discriminate.
    rewrite negb_false_iff, orb_true_iff, str_in_In, existsb_exists.
    split.
    + intros [H|(e & He & Hm)]; eauto.
    + intros (e & He & [-> |Hm]); eauto.
Qed.

(** X1. The gate exempts a path exactly when some entry of the list is
    the path with its trailing separator, or matches it as a pattern. *)
Theorem require_auth_exempt_iff (p : pystr) (l : list pystr) :
  require_auth (Some p) (Some l) = false
  <-> exists e, In e l
                /\ (e = normalized p
                    \/ Fnmatch.fnmatch (normalized p) e = true).
Proof.
  destruct l as [|e0 l].
  - split; [discriminate | intros (e & [] & _)].
  - rewrite require_auth_unfold by discriminate.
    rewrite negb_false_iff, orb_true_iff, str_in_In, existsb_exists.
    split.
    + intros [H|(e & He & Hm)]; eauto.
    + intros (e & He & [-> |Hm]); eauto.
Qed.

(** X2. A path without its trailing separator and the same path with it
    get the same answer, whatever the list. *)
Theorem require_auth_trailing_separator
        (p : pystr) (excluded_paths : option (list pystr)) :
  endswith p slash = false ->
  require_auth (Some (p ++ slash)) excluded_paths
  = require_auth (Some p) excluded_paths.
Proof.
  intros H. rewrite <- (normalized_append p H).
  unfold require_auth. now rewrite normalized_idempotent.
Qed.

(** X3. The answer for two lists put together is the conjunction of the
    answers for each: a path needs authentication under the joined list
    exactly when it needs it under both. *)
Theorem require_auth_app (path : option pystr) (l l' : list pystr) :
  require_auth path (Some (l ++ l'))
  = require_auth path (Some l) && require_auth path (Some l').
Proof.
  destruct path as [p|]; [|reflexivity].
  destruct l as [|e l]; [reflexivity|].
  destruct l' as [|e' l'].
  - rewrite app_nil_r. symmetry. apply andb_true_r.
  - rewrite !require_auth_unfold by discriminate.
    unfold str_in. rewrite !existsb_app, <- negb_orb. f_equal.
    repeat match goal with
      | |- context [existsb ?f ?x] => destruct (existsb f x)
      end; reflexivity.
Qed.

(** X4. Entries only ever exempt: a path exempt under a list stays exempt
    under every list that holds the same entries and more. *)
Theorem require_auth_more_entries (p : pystr) (l l' : list pystr) :
  incl l l' ->
  require_auth (Some p) (Some l) = false ->
  require_auth (Some p) (Some l') = false.
Proof.
  intros Hi H.
  destruct (proj1 (require_auth_false_entry p l) H) as (e & He & Hm).
  destruct l' as [|e0 l']; [destruct (Hi e He)|].
  rewrite require_auth_unfold by discriminate.
  rewrite negb_false_iff, orb_true_iff, str_in_In, existsb_exists.
  destruct Hm as [-> |Hm]; [left | right; exists e]; auto.
Qed.

(** X5. Under a non-empty list of entries without [*], [?] and [[], the
    gate exempts exactly the paths that, with their trailing separator,
    are an entry of the list. *)
Theorem require_auth_plain_entries (p : pystr) (l : list pystr) :
  l <> [] ->
  Forall (fun e => Fnmatch.plain e = true) l ->
  require_auth (Some p) (Some l) = negb (str_in (normalized p) l).
Proof.
  intros Hl HF. rewrite require_auth_unfold by assumption. f_equal.
  assert (E : existsb (Fnmatch.fnmatch (normalized p)) l
              = str_in (normalized p) l).
  { unfold str_in. clear Hl.
    induction HF as [|e l He _ IH]; cbn [existsb]; [reflexivity|].
    now rewrite IH, (fnmatch_plain _ _ He). }
  rewrite E. apply orb_diag.
Qed.

(** X6. An entry without special characters and without a trailing
    separator exempts no path: a list of such entries leaves every path
    under authentication. *)
Theorem require_auth_dead_entries
        (path : option pystr) (l : list pystr) :
  Forall (fun e => Fnmatch.plain e = true /\ endswith e slash = false) l ->
  require_auth path (Some l) = true.
Proof.
  intros HF. destruct path as [p|]; [|reflexivity].
  destruct (require_auth (Some p) (Some l)) eqn:E; [reflexivity|].
  apply require_auth_false_entry in E. destruct E as (e & He & Hm).
  rewrite Forall_forall in HF. destruct (HF e He) as [Hp Hs].
  rewrite (fnmatch_plain _ _ Hp), str_eqb_eq in Hm.
  assert (e = normalized p) by (destruct Hm; congruence). subst e.
  rewrite normalized_endswith in Hs. discriminate.
Qed.

(** X7. An entry made of a text without special characters and a final
    star exempts exactly the paths that, with their trailing separator,
    start with the text. *)
Theorem require_auth_prefix_entry (p prefix : pystr) :
  Fnmatch.plain prefix = true ->
  require_auth (Some p) (Some [prefix ++ [Fnmatch.ch_star]])
  = negb (startswith (normalized p) prefix).
Proof.
  intros Hp. rewrite require_auth_unfold by discriminate. f_equal.
  cbn [str_in existsb]. rewrite !orb_false_r, (fnmatch_plain_star _ _ Hp).
  destruct (startswith (normalized p) prefix) eqn:Es;
    [apply orb_true_r|]. rewrite orb_false_r.
  destruct (str_eqb (normalized p) (prefix ++ [Fnmatch.ch_star])) eqn:Ee;
    [|reflexivity].
  apply str_eqb_eq in Ee. rewrite Ee, startswith_app in Es. discriminate.
Qed.

End Gate.

Lemma require_auth_trailing_separator_witness :
  endswith (lit "/api/v1/stats") Auth.slash = false
  /\ Auth.require_auth (Some (lit "/api/v1/stats" ++ Auth.slash))
       (Some [lit "/api/v1/stat*"])
     = Auth.require_auth (Some (lit "/api/v1/stats"))
         (Some [lit "/api/v1/stat*"]).
Proof.
  assert (H : endswith (lit "/api/v1/stats") Auth.slash = false)
    by reflexivity.
  split; [exact H|].
  exact (require_auth_trailing_separator _ _ H).
Defined.

Lemma require_auth_more_entries_witness :
  incl [lit "/b*"] [lit "/a/"; lit "/b*"]
  /\ Auth.require_auth (Some (lit "/bc")) (Some [lit "/b*"]) = false
  /\ Auth.require_auth (Some (lit "/bc")) (Some [lit "/a/"; lit "/b*"])
     = false.
Proof.
  assert (Hi : incl [lit "/b*"] [lit "/a/"; lit "/b*"]).
  { intros e [<-|[]]. right. left. reflexivity. }
  assert (H : Auth.require_auth (Some (lit "/bc")) (Some [lit "/b*"]) = false)
    by reflexivity.
  split; [exact Hi|]. split; [exact H|].
  exact (require_auth_more_entries _ _ _ Hi H).
Defined.

Lemma require_auth_plain_entries_witness :
  [lit "/api/v1/status/"; lit "/api/v1/forbidden/"] <> []
  /\ Forall (fun e => Fnmatch.plain e = true)
       [lit "/api/v1/status/"; lit "/api/v1/forbidden/"]
  /\ Auth.require_auth (Some (lit "/api/v1/status"))
       (Some [lit "/api/v1/status/"; lit "/api/v1/forbidden/"])
     = negb (str_in (Auth.normalized (lit "/api/v1/status"))
               [lit "/api/v1/status/"; lit "/api/v1/forbidden/"]).
Proof.
  assert (Hl : [lit "/api/v1/status/"; lit "/api/v1/forbidden/"] <> [])
    by discriminate.
  assert (HF : Forall (fun e => Fnmatch.plain e = true)
                 [lit "/api/v1/status/"; lit "/api/v1/forbidden/"])
    by (repeat constructor).
  split; [exact Hl|]. split; [exact HF|].
  exact (require_auth_plain_entries _ _ Hl HF).
Defined.

Lemma require_auth_dead_entries_witness :
  Forall (fun e => Fnmatch.plain e = true /\ endswith e Auth.slash = false)
    [lit "/api/v1/status"]
  /\ Auth.require_auth (Some (lit "/api/v1/status"))
       (Some [lit "/api/v1/status"]) = true.
Proof.
  assert (HF : Forall (fun e => Fnmatch.plain e = true
                                /\ endswith e Auth.slash = false)
                 [lit "/api/v1/status"])
    by (repeat constructor).
  split; [exact HF|].
  exact (require_auth_dead_entries _ _ HF).
Defined.

Lemma require_auth_prefix_entry_witness :
  Fnmatch.plain (lit "/api/v1/stat") = true
  /\ Auth.require_auth (Some (lit "/api/v1/stats"))
       (Some [lit "/api/v1/stat" ++ [Fnmatch.ch_star]])
     = negb (startswith (Auth.normalized (lit "/api/v1/stats"))
               (lit "/api/v1/stat")).
Proof.
  assert (H : Fnmatch.plain (lit "/api/v1/stat") = true) by reflexivity.
  split; [exact H|].
  exact (require_auth_prefix_entry _ _ H).
Defined.

(** ** From octets back to text *)

Section Utf8Converse.

Import Utf8.

Lemma encode_char_scalar (ch : Z) :
  0 <= ch <= 0x10FFFF -> is_surrogate ch = false ->
  exists b, encode_char ch = Some b.
Proof.
  intros R NS. unfold encode_char. rewrite NS.
  destruct (Z.ltb_spec ch 0); [lia|].
  destruct (Z.ltb_spec 0x10FFFF ch); [lia|]. cbn [orb].
  repeat match goal with
    | |- context [if ?c then _ else _] => destruct c
    end; eauto.
Qed.

Lemma encode_char_None (ch : Z) :
  encode_char ch = None ->
  ch < 0 \/ 0x10FFFF < ch \/ is_surrogate ch = true.
Proof.
  intros E.
  destruct (Z.ltb_spec ch 0); [auto|].
  destruct (Z.ltb_spec 0x10FFFF ch); [auto|].
  destruct (is_surrogate ch) eqn:NS; [auto|].
  destruct (encode_char_scalar ch) as [b Eb]; [lia|assumption|congruence].
Qed.

(** The code point a well-formed sequence stands for encodes back to
    the sequence. *)
Lemma encode_char_1 (ch : Z) :
  0 <= ch < 0x80 -> encode_char ch = Some [ch].
Proof.
  intros R. destruct (encode_char ch) as [b|] eqn:E.
  - destruct (encode_char_cases ch b E)
      as [(R' & ->)|[(R' & ->)|[(R' & NS & ->)|(R' & ->)]]];
      solve [reflexivity | lia].
  - apply encode_char_None in E. unfold is_surrogate in E.
    destruct E as [E|[E|E]]; lia.
Qed.

Lemma encode_char_2 (ch ch2 : Z) :
  0xC2 <= ch < 0xE0 -> 0x80 <= ch2 < 0xC0 ->
  encode_char (Z.shiftl ch 6 + ch2 - (Z.shiftl 0xC0 6 + 0x80))
  = Some [ch; ch2].
Proof.
  intros R R2. shifts_to_arith.
  set (cp := ch * 64 + ch2 - (192 * 64 + 128)).
  assert (Rc : 0x80 <= cp < 0x800) by (subst cp; lia).
  destruct (encode_char cp) as [b|] eqn:E.
  - destruct (encode_char_cases cp b E)
      as [(R' & ->)|[(R' & ->)|[(R' & NS & ->)|(R' & ->)]]];
      try lia.
    do 2 f_equal; [|f_equal]; subst cp; euclid.
  - apply encode_char_None in E. unfold is_surrogate in E.
    destruct E as [E|[E|E]]; lia.
Qed.

Lemma encode_char_3 (ch ch2 ch3 : Z) :
  0xE0 <= ch < 0xF0 -> 0x80 <= ch2 < 0xC0 -> 0x80 <= ch3 < 0xC0 ->
  (if ch2 <? 0xA0 then ch =? 0xE0 else ch =? 0xED) = false ->
  encode_char (Z.shiftl ch 12 + Z.shiftl ch2 6 + ch3
               - (Z.shiftl 0xE0 12 + Z.shiftl 0x80 6 + 0x80))
  = Some [ch; ch2; ch3].
Proof.
  intros R R2 R3 Hx. shifts_to_arith.
  set (cp := ch * 4096 + ch2 * 64 + ch3 - (224 * 4096 + 128 * 64 + 128)).
  assert (Rc : 0x800 <= cp < 0x10000 /\ ~ (0xD800 <= cp <= 0xDFFF)).
  { subst cp. destruct (Z.ltb_spec ch2 0xA0);
      destruct (Z.eqb_spec ch 0xE0); destruct (Z.eqb_spec ch 0xED);
      try discriminate; lia. }
  destruct (encode_char cp) as [b|] eqn:E.
  - destruct (encode_char_cases cp b E)
      as [(R' & ->)|[(R' & ->)|[(R' & NS & ->)|(R' & ->)]]];
      try lia.
    do 2 f_equal; [|f_equal; [|f_equal]]; subst cp; euclid.
  - apply encode_char_None in E. unfold is_surrogate in E.
    destruct E as [E|[E|E]]; lia.
Qed.

Lemma encode_char_4 (ch ch2 ch3 ch4 : Z) :
  0xF0 <= ch < 0xF5 -> 0x80 <= ch2 < 0xC0 -> 0x80 <= ch3 < 0xC0 ->
  0x80 <= ch4 < 0xC0 ->
  (if ch2 <? 0x90 then ch =? 0xF0 else ch =? 0xF4) = false ->
  encode_char (Z.shiftl ch 18 + Z.shiftl ch2 12 + Z.shiftl ch3 6 + ch4
               - (Z.shiftl 0xF0 18 + Z.shiftl 0x80 12
                  + Z.shiftl 0x80 6 + 0x80))
  = Some [ch; ch2; ch3; ch4].
Proof.
  intros R R2 R3 R4 Hx. shifts_to_arith.
  set (cp := ch * 262144 + ch2 * 4096 + ch3 * 64 + ch4
             - (240 * 262144 + 128 * 4096 + 128 * 64 + 128)).
  assert (Rc : 0x10000 <= cp <= 0x10FFFF).
  { subst cp. destruct (Z.ltb_spec ch2 0x90);
      destruct (Z.eqb_spec ch 0xF0); destruct (Z.eqb_spec ch 0xF4);
      try discriminate; lia. }
  destruct (encode_char cp) as [b|] eqn:E.
  - destruct (encode_char_cases cp b E)
      as [(R' & ->)|[(R' & ->)|[(R' & NS & ->)|(R' & ->)]]];
      try lia.
    do 2 f_equal; [|f_equal; [|f_equal; [|f_equal]]]; subst cp; euclid.
  - apply encode_char_None in E. unfold is_surrogate in E.
    destruct E as [E|[E|E]]; lia.
Qed.


Lemma option_map_cons_Some (c : Z) (o : option pystr) (text : pystr) :
  option_map (cons c) o = Some text ->
  exists t, o = Some t /\ text = c :: t.
Proof.
  destruct o as [t|]; cbn [option_map]; [|discriminate].
  intros E. apply some_inj in E. eauto.
Qed.

Lemma continuation_range (ch : Z) :
  is_continuation_byte ch = true -> 0x80 <= ch < 0xC0.
Proof. unfold is_continuation_byte. lia. Qed.

Local Ltac continuation ch H :=
  destruct (is_continuation_byte ch) eqn:H; cbn [negb orb];
  [apply continuation_range in H | discriminate].

Lemma encode_decode_upto (n : nat) :
  forall (bs : pybytes) (text : pystr),
    (List.length bs <= n)%nat ->
    Forall octet bs ->
    decode bs = Some text -> encode text = Some bs.
Proof.
  induction n as [|n IH]; intros [|ch s1] text Hl HF;
    cbn [List.length] in Hl; try lia;
    try (cbn [decode]; intros E; apply some_inj in E; subst text;
         reflexivity).
  assert (Hch : 0 <= ch) by (apply Forall_inv in HF; unfold octet in HF; lia).
  apply Forall_inv_tail in HF.
  cbn [decode].
  destruct (Z.ltb_spec ch 0x80).
  { intros E. apply option_map_cons_Some in E. destruct E as (t & Ed & ->).
    cbn [encode]. rewrite encode_char_1 by lia.
    rewrite (IH s1 t) by (assumption || lia). reflexivity. }
  destruct (Z.ltb_spec ch 0xC2); [discriminate|].
  destruct (Z.ltb_spec ch 0xE0).
  { destruct s1 as [|ch2 s2]; [discriminate|].
    cbn [List.length] in Hl. apply Forall_inv_tail in HF.
    continuation ch2 C2.
    intros E. apply option_map_cons_Some in E. destruct E as (t & Ed & ->).
    cbn [encode]. rewrite encode_char_2 by lia.
    rewrite (IH s2 t) by (assumption || lia). reflexivity. }
  destruct (Z.ltb_spec ch 0xF0).
  { destruct s1 as [|ch2 [|ch3 s3]]; try discriminate.
    cbn [List.length] in Hl. do 2 apply Forall_inv_tail in HF.
    destruct (is_continuation_byte ch2) eqn:C2; cbn [negb orb];
      [apply continuation_range in C2 | discriminate].
    destruct (if ch2 <? 0xA0 then ch =? 0xE0 else ch =? 0xED) eqn:Hx;
      [discriminate|].
    continuation ch3 C3.
    intros E. apply option_map_cons_Some in E. destruct E as (t & Ed & ->).
    cbn [encode]. rewrite encode_char_3 by (assumption || lia).
    rewrite (IH s3 t) by (assumption || lia). reflexivity. }
  destruct (Z.ltb_spec ch 0xF5); [|discriminate].
  destruct s1 as [|ch2 [|ch3 [|ch4 s4]]]; try discriminate.
  cbn [List.length] in Hl. do 3 apply Forall_inv_tail in HF.
  destruct (is_continuation_byte ch2) eqn:C2; cbn [negb orb];
    [apply continuation_range in C2 | discriminate].
  destruct (if ch2 <? 0x90 then ch =? 0xF0 else ch =? 0xF4) eqn:Hx;
    [discriminate|].
  continuation ch3 C3. continuation ch4 C4.
  intros E. apply option_map_cons_Some in E. destruct E as (t & Ed & ->).
  cbn [encode]. rewrite encode_char_4 by (assumption || lia).
  rewrite (IH s4 t) by (assumption || lia). reflexivity.
Qed.

(** The text of a well-formed sequence of octets encodes back to it. *)
Lemma encode_decode (bs : pybytes) (text : pystr) :
  Forall octet bs -> decode bs = Some text -> encode text = Some bs.
Proof. intros HF. now apply (encode_decode_upto (List.length bs)). Qed.

Lemma encode_Some_scalar (s : pystr) (bs : pybytes) :
  encode s = Some bs ->
  Forall (fun ch => 0 <= ch <= 0x10FFFF /\ is_surrogate ch = false) s.
Proof.
  revert bs; induction s as [|ch s IH]; intros bs; cbn [encode];
    [constructor|].
  destruct (encode_char ch) as [b|] eqn:Ec; [|discriminate].
  destruct (encode s) as [bs'|] eqn:Es; [|discriminate]. intros _.
  constructor; [|eapply IH; reflexivity].
  destruct (encode_char_cases ch b Ec)
    as [(R & _)|[(R & _)|[(R & NS & _)|(R & _)]]];
    unfold is_surrogate; lia.
Qed.

End Utf8Converse.

(** ** More on Base64 *)

Section Base64More.

Import Base64.

Lemma land_0xff_octet (x : Z) : octet (Z.land x 0xff).
Proof. unfold octet. euclid. Qed.

(** Every octet [a2b_base64] writes is in range. *)
Lemma a2b_loop_octets (s : pybytes) :
  forall q lc pads out bs,
    Forall octet out ->
    a2b_loop s q lc pads out = Ret bs -> Forall octet bs.
Proof.
  induction s as [|c s IH]; intros q lc pads out bs Ho; cbn [a2b_loop].
  - destruct (negb (q =? 0)); [discriminate|].
    intros E. inversion E. now subst.
  - assert (Hs : forall x, Forall octet (out ++ [Z.land x 0xff])).
    { intros x. apply Forall_app. split; [assumption|].
      constructor; [apply land_0xff_octet | constructor]. }
    repeat match goal with
      | |- context [if ?b then _ else _] => destruct b
      end;
      try (intros E; inversion E; subst; assumption);
      try (apply IH; assumption).
    destruct q as [|[ [] | [] | ]|]; apply IH; auto.
Qed.

Lemma b64decode_octets (s : pystr) (bs : pybytes) :
  b64decode s = Ret bs -> Forall octet bs.
Proof.
  unfold b64decode, _bytes_from_decode_data.
  destruct (isascii s); cbn [bind]; [|discriminate].
  apply a2b_loop_octets. constructor.
Qed.

(** After the padding of a last, short group nothing is read. *)
Lemma a2b_loop_b64encode_padded (bs junk : pybytes) :
  Forall octet bs ->
  (List.length bs mod 3 <> 0)%nat ->
  forall lc pads out,
    a2b_loop (b64encode bs ++ junk) 0 lc pads out = Ret (out ++ bs).
Proof.
  induction bs as [|b1|b1 b2|b1 b2 b3 bs IH] using list_ind3;
    intros HF Hm lc pads out.
  - cbn in Hm. congruence.
  - apply Forall_cons_iff in HF. destruct HF as [H1 _].
    assert (H0 : octet 0) by (unfold octet; lia).
    destruct (group_octets b1 0 0 H1 H0 H0) as ((R1 & R2 & _) & E1 & _).
    cbv zeta in *.
    change (Z.shiftr 0 4) with 0 in *. rewrite Z.lor_0_r in *.
    cbn [b64encode app].
    rewrite !a2b_loop_sextet by assumption.
    rewrite E1. reflexivity.
  - apply Forall_cons_iff in HF. destruct HF as [H1 HF].
    apply Forall_cons_iff in HF. destruct HF as [H2 _].
    assert (H0 : octet 0) by (unfold octet; lia).
    destruct (group_octets b1 b2 0 H1 H2 H0)
      as ((R1 & R2 & R3 & _) & E1 & E2 & _).
    cbv zeta in *.
    change (Z.shiftr 0 6) with 0 in *. rewrite Z.lor_0_r in *.
    cbn [b64encode app].
    rewrite !a2b_loop_sextet by assumption.
    rewrite E1, E2, <- app_assoc. reflexivity.
  - apply Forall_cons_iff in HF. destruct HF as [H1 HF].
    apply Forall_cons_iff in HF. destruct HF as [H2 HF].
    apply Forall_cons_iff in HF. destruct HF as [H3 HF].
    destruct (group_octets b1 b2 b3 H1 H2 H3)
      as ((R1 & R2 & R3 & R4) & E1 & E2 & E3).
    cbv zeta in *.
    cbn [b64encode app].
    rewrite !a2b_loop_sextet by assumption.
    rewrite E1, E2, E3, IH.
    + now rewrite <- !app_assoc.
    + assumption.
    + cbn [List.length] in Hm.
      replace (S (S (S (List.length bs)))) with (List.length bs + 1 * 3)%nat
        in Hm by lia.
      now rewrite Nat.Div0.mod_add in Hm.
Qed.

Lemma isascii_app (a b : pystr) :
  isascii (a ++ b) = isascii a && isascii b.
Proof. unfold isascii. apply forallb_app. Qed.

Lemma b64decode_padded_junk (bs : pybytes) (junk : pystr) :
  Forall octet bs ->
  (List.length bs mod 3 <> 0)%nat ->
  isascii junk = true ->
  b64decode (b64encode bs ++ junk) = Ret bs.
Proof.
  intros HF Hm Hj. unfold b64decode, _bytes_from_decode_data.
  rewrite isascii_app, isascii_b64encode, Hj. cbn [andb bind].
  unfold a2b_base64. now rewrite a2b_loop_b64encode_padded.
Qed.

End Base64More.

(** ** More on the stages *)

Section StagesMore.

(** X8. The decode stage undoes the standard encoding: on the Base64 text
    of the UTF-8 octets of a text it returns the text. *)
Theorem decode_base64_inverts_encoding (text : pystr) (octets : pybytes) :
  Utf8.encode text = Some octets ->
  decode_base64_authorization_header (PyStr (Base64.b64encode octets))
  = Ret (Some text).
Proof.
  intros He.
  rewrite decode_base64_b64encode by (eapply encode_octets; eassumption).
  now rewrite (decode_encode _ _ He).
Qed.

(** X9. After the padding of a last, short group the decode stage reads
    nothing: ASCII text added behind it does not change the result. *)
Theorem decode_base64_after_padding (bs : pybytes) (junk : pystr) :
  Forall octet bs ->
  (List.length bs mod 3 <> 0)%nat ->
  isascii junk = true ->
  decode_base64_authorization_header (PyStr (Base64.b64encode bs ++ junk))
  = decode_base64_authorization_header (PyStr (Base64.b64encode bs)).
Proof.
  intros HF Hm Hj. rewrite !decode_base64_unfold.
  now rewrite b64decode_padded_junk, b64decode_b64encode.
Qed.

(** X10. A text the decode stage returns is made of Unicode scalar
    values, and its UTF-8 encoding is the octets [b64decode] gave. *)
Theorem decode_base64_text_encodes_back (s text : pystr) :
  decode_base64_authorization_header (PyStr s) = Ret (Some text) ->
  Forall (fun ch => 0 <= ch <= 0x10FFFF /\ Utf8.is_surrogate ch = false) text
  /\ exists bs, Base64.b64decode s = Ret bs /\ Utf8.encode text = Some bs.
Proof.
  rewrite decode_base64_unfold.
  destruct (Base64.b64decode s) as [bs|[]] eqn:Eb; try discriminate.
  intros E. assert (Ed : Utf8.decode bs = Some text) by congruence.
  assert (Ee : Utf8.encode text = Some bs)
    by (apply encode_decode; [eapply b64decode_octets; eassumption | exact Ed]).
  split; [eapply encode_Some_scalar; eassumption | eauto].
Qed.

(** X11. The decode stage raises on one kind of input only, a string
    with a character that is not ASCII, and then a [ValueError]; on every
    other value it returns. *)
Theorem decode_base64_raises_iff (v : value) (e : exn) :
  decode_base64_authorization_header v = Raise e
  <-> e = ValueError /\ exists s, v = PyStr s /\ isascii s = false.
Proof.
  split.
  - destruct v as [|s|n|b]; try discriminate.
    rewrite decode_base64_unfold.
    destruct (isascii s) eqn:Ha.
    + destruct (b64decode_ascii s Ha) as [[bs ->]| ->]; discriminate.
    + rewrite (b64decode_non_ascii s Ha). intros E.
      split; [congruence | eauto].
  - intros (-> & s & -> & Ha).
    rewrite decode_base64_unfold. now rewrite (b64decode_non_ascii s Ha).
Qed.

(** X12. The split stage returns a pair of texts exactly on a string
    with a colon, cut at its first colon: the first text has no colon,
    and the two joined by a colon are the string. On every other value
    it returns the pair of absent values, never one text alone. *)
Theorem extract_user_credentials_first_colon :
  (forall (v : value) (email password : pystr),
      extract_user_credentials v = (Some email, Some password)
      <-> v = PyStr (email ++ colon :: password) /\ ~ In colon email)
  /\ (forall v : value,
         extract_user_credentials v = (None, None)
         \/ exists email password,
             extract_user_credentials v = (Some email, Some password)).
Proof.
  split.
  - intros v email password. split.
    + destruct v as [|s|n|b]; cbn [extract_user_credentials];
        try discriminate.
      destruct (contains colon s) eqn:Hc; cbn [negb]; [|discriminate].
      destruct (split_first colon s) as [a b] eqn:Hs. intros E.
      assert (a = email /\ b = password) as [-> ->]
        by (split; congruence).
      destruct (split_first_first_colon s email password Hc Hs) as [-> Hn].
      auto.
    + intros [-> Hn]. cbn [extract_user_credentials].
      now rewrite contains_colon_app, split_first_app.
  - intros [|s|n|b]; cbn [extract_user_credentials]; auto.
    destruct (contains colon s); cbn [negb]; auto.
    destruct (split_first colon s) as [a b]. eauto.
Qed.

End StagesMore.

Lemma decode_base64_inverts_encoding_witness :
  Utf8.encode (lit "bob:pa:ss" ++ [233; 0x20AC])
  = Some (lit "bob:pa:ss" ++ [195; 169; 226; 130; 172])
  /\ decode_base64_authorization_header
       (PyStr (Base64.b64encode (lit "bob:pa:ss" ++ [195; 169; 226; 130; 172])))
     = Ret (Some (lit "bob:pa:ss" ++ [233; 0x20AC])).
Proof.
  assert (H : Utf8.encode (lit "bob:pa:ss" ++ [233; 0x20AC])
              = Some (lit "bob:pa:ss" ++ [195; 169; 226; 130; 172]))
    by reflexivity.
  split; [exact H|].
  exact (decode_base64_inverts_encoding _ _ H).
Defined.

Lemma decode_base64_after_padding_witness :
  Forall octet [104; 105]
  /\ (List.length [104; 105] mod 3 <> 0)%nat
  /\ isascii (lit "junk") = true
  /\ decode_base64_authorization_header
       (PyStr (Base64.b64encode [104; 105] ++ lit "junk"))
     = decode_base64_authorization_header
         (PyStr (Base64.b64encode [104; 105])).
Proof.
  assert (HF : Forall octet [104; 105])
    by (repeat constructor; unfold octet; lia).
  assert (Hm : (List.length [104; 105] mod 3 <> 0)%nat) by discriminate.
  assert (Hj : isascii (lit "junk") = true) by reflexivity.
  split; [exact HF|]. split; [exact Hm|]. split; [exact Hj|].
  exact (decode_base64_after_padding _ _ HF Hm Hj).
Defined.

Lemma decode_base64_text_encodes_back_witness :
  decode_base64_authorization_header (PyStr (lit " w6k="))
  = Ret (Some [233])
  /\ Forall (fun ch => 0 <= ch <= 0x10FFFF /\ Utf8.is_surrogate ch = false)
       [233]
  /\ exists bs, Base64.b64decode (lit " w6k=") = Ret bs
                /\ Utf8.encode [233] = Some bs.
Proof.
  assert (H : decode_base64_authorization_header (PyStr (lit " w6k="))
              = Ret (Some [233])) by reflexivity.
  split; [exact H|].
  exact (decode_base64_text_encodes_back _ _ H).
Defined.

(** ** More on resolving the principal *)

Section ResolveMore.

Variable User : Type.
Variable search : pystr -> list User.
Variable is_valid_password : User -> pystr -> bool.

Local Abbreviation current_user :=
  (current_user User search is_valid_password).
Local Abbreviation user_object_from_credentials :=
  (user_object_from_credentials User search is_valid_password).

(** X13. The lookup stage returns a user exactly when both arguments are
    strings, the store returns at least one user for the email, and the
    first one accepts the password; the users after the first are never
    asked. *)
Theorem user_object_first_match (user_email user_pwd : value) (u : User) :
  user_object_from_credentials user_email user_pwd = Some u
  <-> exists email pwd others,
      user_email = PyStr email /\ user_pwd = PyStr pwd
      /\ search email = u :: others
      /\ is_valid_password u pwd = true.
Proof.
  split.
  - destruct user_email as [|email| |], user_pwd as [|pwd| |];
      try discriminate.
    intros E. apply user_object_Some in E. destruct E as (others & Es & Hv).
    exists email, pwd, others. auto.
  - intros (email & pwd & others & -> & -> & Es & Hv).
    apply user_object_Some. eauto.
Qed.

(** X14. Without a request, or without an authorization header in it,
    the pipeline returns the absent principal. *)
Theorem current_user_without_header (request : option Request) :
  authorization_header request = None -> current_user request = Ret None.
Proof.
  intros H. unfold BasicAuth.current_user. now rewrite H.
Qed.

(** X15. On a request whose authorization header, if any, is ASCII, the
    pipeline returns: a principal or the absent one, no exception. *)
Theorem current_user_ascii_returns (request : option Request) :
  (forall header,
      authorization_header request = Some header -> isascii header = true) ->
  exists r, current_user request = Ret r.
Proof.
  intros Ha.
  destruct (current_user request) as [r|e] eqn:E; [eauto|].
  apply current_user_Raise in E.
  destruct E as (_ & header & b & Hh & Hb & Hn).
  apply extract_base64_Some in Hb.
  assert (Hx : header = Basic_ ++ b) by congruence.
  specialize (Ha header Hh).
  rewrite Hx, isascii_app, Hn, andb_false_r in Ha. discriminate.
Qed.

(** X16. On the header made of the scheme prefix and the Base64 text of
    the UTF-8 octets of [email:pwd], the email without a colon, the
    pipeline returns what the lookup stage returns for the email and the
    password. *)
Theorem current_user_well_formed_header
        (request : option Request) (email pwd : pystr) (octets : pybytes) :
  authorization_header request = Some (Basic_ ++ Base64.b64encode octets) ->
  ~ In colon email ->
  Utf8.encode (email ++ colon :: pwd) = Some octets ->
  current_user request
  = Ret (user_object_from_credentials (PyStr email) (PyStr pwd)).
Proof.
  intros Hh Hn He. rewrite (current_user_header _ _ _ _ _ Hh).
  rewrite (proj2 (extract_base64_Some _ _) eq_refl).
  rewrite decode_base64_b64encode by (eapply encode_octets; eassumption).
  rewrite (decode_encode _ _ He).
  now rewrite contains_colon_app, split_first_app.
Qed.

(** X17. On the header made of the scheme prefix and the Base64 text of
    the UTF-8 octets of a text without a colon, the pipeline returns the
    absent principal, whatever the store holds. *)
Theorem current_user_payload_without_colon
        (request : option Request) (text : pystr) (octets : pybytes) :
  authorization_header request = Some (Basic_ ++ Base64.b64encode octets) ->
  contains colon text = false ->
  Utf8.encode text = Some octets ->
  current_user request = Ret None.
Proof.
  intros Hh Hc He. rewrite (current_user_header _ _ _ _ _ Hh).
  rewrite (proj2 (extract_base64_Some _ _) eq_refl).
  rewrite decode_base64_b64encode by (eapply encode_octets; eassumption).
  rewrite (decode_encode _ _ He). now rewrite Hc.
Qed.

End ResolveMore.

Lemma contains_false_not_In (c : Z) (s : pystr) :
  contains c s = false -> ~ In c s.
Proof.
  unfold contains. intros H Hin.
  assert (E : existsb (Z.eqb c) s = true)
    by (apply existsb_exists; exists c; split; [assumption | apply Z.eqb_refl]).
  congruence.
Qed.

Lemma decode_base64_filter (s : pystr) :
  isascii s = true ->
  decode_base64_authorization_header (PyStr (filter Base64.significant s))
  = decode_base64_authorization_header (PyStr s).
Proof.
  intros Ha. rewrite !decode_base64_unfold. now rewrite b64decode_filter.
Qed.

Section Canonical.

Variable User : Type.
Variable search : pystr -> list User.
Variable is_valid_password : User -> pystr -> bool.

Local Abbreviation current_user :=
  (current_user User search is_valid_password).

(** X18. Two headers with the scheme prefix whose ASCII payloads differ
    only by characters outside the Base64 alphabet and the pad character
    resolve to the same result. *)
Theorem current_user_foreign_characters
        (request request' : option Request) (payload : pystr) :
  authorization_header request = Some (Basic_ ++ payload) ->
  authorization_header request'
  = Some (Basic_ ++ filter Base64.significant payload) ->
  isascii payload = true ->
  current_user request' = current_user request.
Proof.
  intros Hh Hh' Ha.
  rewrite (current_user_header _ _ _ _ _ Hh),
          (current_user_header _ _ _ _ _ Hh').
  rewrite !(proj2 (extract_base64_Some _ _) eq_refl).
  now rewrite decode_base64_filter.
Qed.

End Canonical.

Lemma current_user_without_header_witness :
  authorization_header None = None
  /\ current_user unit no_users reject None = Ret None.
Proof.
  assert (H : authorization_header None = None) by reflexivity.
  split; [exact H|].
  exact (current_user_without_header unit no_users reject _ H).
Defined.

Lemma current_user_ascii_returns_witness :
  (forall header,
      authorization_header (request_with (lit "Basic Ym9i")) = Some header ->
      isascii header = true)
  /\ exists r,
      current_user unit no_users reject (request_with (lit "Basic Ym9i"))
      = Ret r.
Proof.
  assert (H : forall header,
             authorization_header (request_with (lit "Basic Ym9i"))
             = Some header ->
             isascii header = true).
  { intros header E. apply some_inj in E. subst header. reflexivity. }
  split; [exact H|].
  exact (current_user_ascii_returns unit no_users reject _ H).
Defined.

Lemma current_user_well_formed_header_witness :
  let email := fst bob in
  let pwd := snd bob in
  let octets := lit "bob@hbtn.io:pa:ss" in
  let request := request_with (Basic_ ++ Base64.b64encode octets) in
  authorization_header request = Some (Basic_ ++ Base64.b64encode octets)
  /\ ~ In colon email
  /\ Utf8.encode (email ++ colon :: pwd) = Some octets
  /\ current_user _ only_bob same_password request = Ret (Some bob).
Proof.
  cbv zeta.
  assert (Hh : authorization_header
                 (request_with
                    (Basic_ ++ Base64.b64encode (lit "bob@hbtn.io:pa:ss")))
               = Some (Basic_ ++ Base64.b64encode (lit "bob@hbtn.io:pa:ss")))
    by reflexivity.
  assert (Hn : ~ In colon (fst bob))
    by (apply contains_false_not_In; reflexivity).
  assert (He : Utf8.encode (fst bob ++ colon :: snd bob)
               = Some (lit "bob@hbtn.io:pa:ss")) by reflexivity.
  split; [exact Hh|]. split; [exact Hn|]. split; [exact He|].
  exact (current_user_well_formed_header _ only_bob same_password
           _ _ _ _ Hh Hn He).
Defined.

Lemma current_user_payload_without_colon_witness :
  let text := lit "not-a-valid-pair" in
  let request := request_with (Basic_ ++ Base64.b64encode text) in
  authorization_header request = Some (Basic_ ++ Base64.b64encode text)
  /\ contains colon text = false
  /\ Utf8.encode text = Some text
  /\ current_user _ only_bob same_password request = Ret None.
Proof.
  cbv zeta.
  assert (Hh : authorization_header
                 (request_with
                    (Basic_ ++ Base64.b64encode (lit "not-a-valid-pair")))
               = Some (Basic_ ++ Base64.b64encode (lit "not-a-valid-pair")))
    by reflexivity.
  assert (Hc : contains colon (lit "not-a-valid-pair") = false)
    by reflexivity.
  assert (He : Utf8.encode (lit "not-a-valid-pair")
               = Some (lit "not-a-valid-pair")) by reflexivity.
  split; [exact Hh|]. split; [exact Hc|]. split; [exact He|].
  exact (current_user_payload_without_colon _ only_bob same_password
           _ _ _ Hh Hc He).
Defined.

Lemma current_user_foreign_characters_witness :
  let payload := lit "Ym9iQGhi dG4uaW86 cGE6c3M=" in
  let request := request_with (Basic_ ++ payload) in
  let request' :=
    request_with (Basic_ ++ filter Base64.significant payload) in
  authorization_header request = Some (Basic_ ++ payload)
  /\ authorization_header request'
     = Some (Basic_ ++ filter Base64.significant payload)
  /\ isascii payload = true
  /\ current_user _ only_bob same_password request'
     = current_user _ only_bob same_password request.
Proof.
  cbv zeta.
  assert (Hh : authorization_header
                 (request_with (Basic_ ++ lit "Ym9iQGhi dG4uaW86 cGE6c3M="))
               = Some (Basic_ ++ lit "Ym9iQGhi dG4uaW86 cGE6c3M="))
    by reflexivity.
  assert (Hh' : authorization_header
                  (request_with
                     (Basic_ ++ filter Base64.significant
                                  (lit "Ym9iQGhi dG4uaW86 cGE6c3M=")))
                = Some (Basic_ ++ filter Base64.significant
                                    (lit "Ym9iQGhi dG4uaW86 cGE6c3M=")))
    by reflexivity.
  assert (Ha : isascii (lit "Ym9iQGhi dG4uaW86 cGE6c3M=") = true)
    by reflexivity.
  split; [exact Hh|]. split; [exact Hh'|]. split; [exact Ha|].
  exact (current_user_foreign_characters _ only_bob same_password
           _ _ _ Hh Hh' Ha).
Defined.
